(** * TimeNote: the note model of [src/App.tsx]

    A shallow embedding of the TimeNote component: the two time helpers
    ([timeToMinutes], [minutesToTime]), the form handlers ([handleSubmit],
    [handleEdit], [handleDelete], [handleCancelEdit], the "Delete All"
    button) and the two persistence effects of the component.

    Conventions of the embedding.
    - A JavaScript string is a sequence of UTF-16 code units; a character of
      the model ([ascii]) is a code unit in the range 0..255.
    - A JavaScript number that holds an integer is a [Z] (every integer the
      component computes is far below 2^53, where doubles are exact).  The
      one division of the component is carried out in [Q].
    - A handler is a function from the values its closure captured at render
      time to the list of effects it performs, in program order: [alert]
      calls and calls of the state setters of [useState].
    - What the host decides is an argument: the value of [Date.now()], the
      answer to [window.confirm], the collation behind [localeCompare], the
      serializer behind [JSON] and the quota of [localStorage]. *)

From Stdlib Require Import List String Ascii ZArith QArith Qround Qabs Bool Lia.
From Stdlib Require Import Permutation Sorted DecimalString DecimalPos DecimalZ.
Import ListNotations.

#[local] Open Scope string_scope.
#[local] Open Scope Z_scope.

(* ================================================================== *)
(** * JavaScript built-ins used by the component *)
(* ================================================================== *)

Module JS.

(** Truthiness of a string: only the empty string is falsy. *)
Definition truthy (s : string) : bool :=
  match s with
  | EmptyString => false
  | String _ _ => true
  end.

(** [WhiteSpace] and [LineTerminator] code units below 256:
    TAB, LF, VT, FF, CR, SP and NBSP. *)
Definition isWhiteSpace (c : ascii) : bool :=
  let n := N_of_ascii c in
  ((9 <=? n) && (n <=? 13) || (n =? 32) || (n =? 160))%N.

(** [String.prototype.trimStart]. *)
Fixpoint trimStart (s : string) : string :=
  match s with
  | EmptyString => EmptyString
  | String c s' => if isWhiteSpace c then trimStart s' else s
  end.

(** [String.prototype.trimEnd]: a character is dropped when it is white
    space and everything after it has been dropped. *)
Fixpoint trimEnd (s : string) : string :=
  match s with
  | EmptyString => EmptyString
  | String c s' =>
      match trimEnd s' with
      | EmptyString => if isWhiteSpace c then EmptyString else String c EmptyString
      | r => String c r
      end
  end.

(** [String.prototype.trim]. *)
Definition trim (s : string) : string := trimEnd (trimStart s).

(** [a >= b] on two strings: the relational operators compare code units,
    lexicographically, and [a >= b] is the negation of [a < b]. *)
Definition ge (a b : string) : bool := negb (String.ltb a b).

(** [s.split(sep)] for a separator of one character. *)
Fixpoint split (sep : ascii) (s : string) : list string :=
  match s with
  | EmptyString => [EmptyString]
  | String c s' =>
      if Ascii.eqb c sep then EmptyString :: split sep s'
      else match split sep s' with
           | [] => [String c EmptyString]
           | piece :: pieces => String c piece :: pieces
           end
  end.

(** [Number(s)] on the strings the component feeds it: the empty string
    is [0] and a string of decimal digits is its value.  [None] stands for
    [NaN] and for the other forms [Number] accepts (sign, fraction,
    exponent, radix prefix, surrounding white space, [Infinity]), which
    are not modelled. *)
Definition Number (s : string) : option Z :=
  match s with
  | EmptyString => Some 0
  | _ => option_map Z.of_uint (NilEmpty.uint_of_string s)
  end.

(** [n.toString()] for an integer [n]. *)
Definition toString (n : Z) : string := NilZero.string_of_int (Z.to_int n).

Fixpoint repeat_char (c : ascii) (n : nat) : string :=
  match n with
  | O => EmptyString
  | S n' => String c (repeat_char c n')
  end.

(** [s.padStart(targetLength, pad)] for a pad string of one character. *)
Definition padStart (targetLength : nat) (pad : ascii) (s : string) : string :=
  repeat_char pad (targetLength - String.length s) ++ s.

(** [Math.floor(a / b)] for integers [a] and [b], [b] positive, and
    [a % b], which takes the sign of [a]. *)
Definition floor_div (a b : Z) : Z := Z.div a b.
Definition remainder (a b : Z) : Z := Z.rem a b.

(** [Array.prototype.sort(compareFn)]: a stable sort; [a] stays before [b]
    unless [compareFn(a, b) > 0].  Written as an insertion sort that
    inserts from the right, which is stable.  For a consistent comparator
    the result of a stable sort is determined; for another one the order
    is left to the implementation, and this is one such order. *)
Section Sort.
Context {A : Type} (compareFn : A -> A -> Z).

Fixpoint insert (x : A) (l : list A) : list A :=
  match l with
  | [] => [x]
  | y :: l' => if compareFn x y <=? 0 then x :: l else y :: insert x l'
  end.

Fixpoint sort (l : list A) : list A :=
  match l with
  | [] => []
  | x :: l' => insert x (sort l')
  end.
End Sort.

End JS.

(* ================================================================== *)
(** * Time helpers (App.tsx, lines 13-22) *)
(* ================================================================== *)

(** [const [hours, minutes] = timeStr.split(":").map(Number);
     return hours * 60 + minutes;]
    A missing piece is [undefined] and makes the sum [NaN]. *)
Definition timeToMinutes (timeStr : string) : option Z :=
  match map JS.Number (JS.split ":" timeStr) with
  | Some hours :: Some minutes :: _ => Some (hours * 60 + minutes)
  | _ => None
  end.

(** [const h = Math.floor(minutes / 60); const m = minutes % 60;
     return `${h.toString().padStart(2, "0")}:${m.toString().padStart(2, "0")}`;] *)
Definition minutesToTime (minutes : Z) : string :=
  let h := JS.floor_div minutes 60 in
  let m := JS.remainder minutes 60 in
  JS.padStart 2 "0" (JS.toString h) ++ ":" ++ JS.padStart 2 "0" (JS.toString m).

Definition isDigit (c : ascii) : bool :=
  ((48 <=? N_of_ascii c) && (N_of_ascii c <=? 57))%N.

Definition digitValue (c : ascii) : Z := Z.of_N (N_of_ascii c) - 48.

(** The data model's time of day: zero-padded [HH:MM], 00:00 to 23:59, as
    [<input type="time">] yields it. *)
Definition isTime (s : string) : bool :=
  match s with
  | String a (String b (String c (String d (String e EmptyString)))) =>
      isDigit a && isDigit b && Ascii.eqb c ":" && isDigit d && isDigit e
      && (10 * digitValue a + digitValue b <? 24)
      && (10 * digitValue d + digitValue e <? 60)
  | _ => false
  end.

(** The specification's [minutes(t)]: the minutes since midnight that the
    text [HH:MM] denotes. *)
Definition spec_minutes (t : string) : Z :=
  match t with
  | String a (String b (String _ (String d (String e EmptyString)))) =>
      (10 * digitValue a + digitValue b) * 60 + (10 * digitValue d + digitValue e)
  | _ => 0
  end.

(** A string of decimal digits, by its value as [Number] reads it. *)
Definition digitsOf (s : string) (n : Z) : Prop :=
  exists d, NilEmpty.uint_of_string s = Some d /\ Z.of_uint d = n.

(* ================================================================== *)
(** * Data model (App.tsx, lines 5-11 and 24-32) *)
(* ================================================================== *)

(** [interface Note { id: number; startTime: string; endTime: string;
    text: string }] *)
Module Note.
Record t : Type := make {
  id : Z;
  startTime : string;
  endTime : string;
  text : string
}.
End Note.
Abbreviation Note := Note.t.

(** The five [useState] cells of the component. *)
Module State.
Record t : Type := make {
  notes : list Note;
  startTime : string;
  endTime : string;
  text : string;
  editingNoteId : option Z
}.
End State.
Abbreviation State := State.t.

(** The state of the first render. *)
Definition initialState : State := State.make [] "" "" "" None.

(** The two messages [handleSubmit] shows with [alert], under the names the
    specification gives the two failures: the first asks to fill in start
    time, end time and content, the second to set the end time after the
    start time. *)
Inductive Alert : Type :=
| MissingField
| InvalidRange.

(** What a handler does: it shows an alert or calls a state setter.
    [setNotes] takes an updater, as at every call site but "Delete All",
    which passes the constant updater. *)
Inductive Effect : Type :=
| alert (message : Alert)
| setNotes (updater : list Note -> list Note)
| setStartTime (value : string)
| setEndTime (value : string)
| setText (value : string)
| setEditingNoteId (value : option Z)
| consoleError (message : string).

(** React applies the queued setter calls in order. *)
Definition applyEffect (st : State) (e : Effect) : State :=
  match e with
  | alert _ | consoleError _ => st
  | setNotes updater =>
      State.make (updater (State.notes st)) (State.startTime st)
        (State.endTime st) (State.text st) (State.editingNoteId st)
  | setStartTime v =>
      State.make (State.notes st) v (State.endTime st) (State.text st)
        (State.editingNoteId st)
  | setEndTime v =>
      State.make (State.notes st) (State.startTime st) v (State.text st)
        (State.editingNoteId st)
  | setText v =>
      State.make (State.notes st) (State.startTime st) (State.endTime st) v
        (State.editingNoteId st)
  | setEditingNoteId v =>
      State.make (State.notes st) (State.startTime st) (State.endTime st)
        (State.text st) v
  end.

Definition run (effects : list Effect) (st : State) : State :=
  fold_left applyEffect effects st.

(** Does the handler call [setNotes]? *)
Definition callsSetNotes (effects : list Effect) : bool :=
  existsb (fun e => match e with setNotes _ => true | _ => false end) effects.

(** The alerts a handler shows. *)
Fixpoint alerts (effects : list Effect) : list Alert :=
  match effects with
  | [] => []
  | alert m :: rest => m :: alerts rest
  | _ :: rest => alerts rest
  end.

(* ================================================================== *)
(** * The note store: the updaters passed to [setNotes] *)
(* ================================================================== *)

Module NoteStore.
Section Collation.

(** [String.prototype.localeCompare]: the collation of the host's locale,
    negative, zero or positive. *)
Variable localeCompare : string -> string -> Z.

(** [(a, b) => a.startTime.localeCompare(b.startTime)] *)
Definition byStartTime (a b : Note) : Z :=
  localeCompare (Note.startTime a) (Note.startTime b).

(** [(note) => note.id === editingNoteId
       ? { ...note, startTime, endTime, text } : note] *)
Definition replaceFields (editingNoteId : Z) (startTime endTime text : string)
    (note : Note) : Note :=
  if Note.id note =? editingNoteId
  then Note.make (Note.id note) startTime endTime text
  else note.

(** Lines 71-79: [prevNotes.map(...).sort(...)]. *)
Definition update (editingNoteId : Z) (startTime endTime text : string)
    (prevNotes : list Note) : list Note :=
  JS.sort byStartTime
    (map (replaceFields editingNoteId startTime endTime text) prevNotes).

(** Lines 82-92: [[...prevNotes, newNote].sort(...)], with [now] the value
    of [Date.now()]. *)
Definition add (now : Z) (startTime endTime text : string)
    (prevNotes : list Note) : list Note :=
  let newNote := Note.make now startTime endTime text in
  JS.sort byStartTime (prevNotes ++ [newNote]).

(** Line 112: [prevNotes.filter((note) => note.id !== id)]. *)
Definition remove (id : Z) (prevNotes : list Note) : list Note :=
  filter (fun note => negb (Note.id note =? id)) prevNotes.

(** Line 207: [setNotes([])]. *)
Definition clear (prevNotes : list Note) : list Note := [].

End Collation.
End NoteStore.

(* ================================================================== *)
(** * The handlers (App.tsx, lines 57-121 and 201-209) *)
(* ================================================================== *)

Section Handlers.

Variable localeCompare : string -> string -> Z.

(** The setter calls that end [handleSubmit] and make up
    [handleCancelEdit] apart from their order. *)
Definition resetForm : list Effect :=
  [setStartTime ""; setEndTime ""; setText ""; setEditingNoteId None].

(** [handleSubmit], run in state [st] while [Date.now()] would return
    [now].  ([e.preventDefault()] acts on the event, not on the state.) *)
Definition handleSubmit (now : Z) (st : State) : list Effect :=
  let startTime := State.startTime st in
  let endTime := State.endTime st in
  let text := State.text st in
  if negb (JS.truthy startTime) || negb (JS.truthy endTime)
     || negb (JS.truthy (JS.trim text))
  then [alert MissingField]
  else if JS.ge startTime endTime
  then [alert InvalidRange]
  else
    match State.editingNoteId st with
    | Some editingNoteId =>
        setNotes (NoteStore.update localeCompare editingNoteId startTime endTime text)
        :: resetForm
    | None =>
        setNotes (NoteStore.add localeCompare now startTime endTime text)
        :: resetForm
    end.

Definition handleEdit (note : Note) : list Effect :=
  [setEditingNoteId (Some (Note.id note));
   setStartTime (Note.startTime note);
   setEndTime (Note.endTime note);
   setText (Note.text note)].

Definition handleDelete (id : Z) : list Effect :=
  [setNotes (NoteStore.remove id)].

Definition handleCancelEdit : list Effect :=
  [setEditingNoteId None; setStartTime ""; setEndTime ""; setText ""].

(** The "Delete All" button; [confirmed] is the answer to
    [window.confirm]. *)
Definition handleDeleteAll (confirmed : bool) : list Effect :=
  if confirmed then [setNotes NoteStore.clear] else [].

End Handlers.

(** The store operations of the specification, as [handleSubmit],
    [handleDelete] and "Delete All" pass them to [setNotes]. *)
Inductive Op : Type :=
| Add (now : Z) (startTime endTime text : string)
| Update (id : Z) (startTime endTime text : string)
| Remove (id : Z)
| Clear.

Definition applyOp (localeCompare : string -> string -> Z)
    (notes : list Note) (op : Op) : list Note :=
  match op with
  | Add now s e t => NoteStore.add localeCompare now s e t notes
  | Update id s e t => NoteStore.update localeCompare id s e t notes
  | Remove id => NoteStore.remove id notes
  | Clear => NoteStore.clear notes
  end.

Definition runOps (localeCompare : string -> string -> Z)
    (ops : list Op) (notes : list Note) : list Note :=
  fold_left (applyOp localeCompare) ops notes.

Definition ids (notes : list Note) : list Z := map Note.id notes.

Definition hasId (id : Z) (notes : list Note) : bool :=
  existsb (fun note => Note.id note =? id) notes.

(** Every [Add] of the sequence reads a clock value that is not the id of a
    note of the collection it extends. *)
Fixpoint freshAdds (localeCompare : string -> string -> Z)
    (notes : list Note) (ops : list Op) : bool :=
  match ops with
  | [] => true
  | op :: rest =>
      match op with
      | Add now _ _ _ => negb (hasId now notes)
      | _ => true
      end && freshAdds localeCompare (applyOp localeCompare notes op) rest
  end.

(* ================================================================== *)
(** * Duration (App.tsx, lines 233-239) *)
(* ================================================================== *)

(** [(timeToMinutes(note.endTime) - timeToMinutes(note.startTime)) / 60];
    the quotient is exact here, the double of the source is the one nearest
    to it. *)
Definition durationHours (note : Note) : option Q :=
  match timeToMinutes (Note.endTime note), timeToMinutes (Note.startTime note) with
  | Some e, Some s => Some (inject_Z (e - s) / inject_Z 60)%Q
  | _, _ => None
  end.

(** [parseFloat(x.toFixed(2))] for the durations the list shows: [x]
    rounded to a hundredth, a tie going away from zero.  The source rounds
    the double nearest to the quotient and this rounds the quotient itself;
    the two agree for the differences of two times of day, -1439 to 1439
    minutes, not for every number (a double of some 10^15 minutes is too
    coarse). *)
Definition toFixed2 (x : Q) : Q :=
  let n := Qfloor (Qabs x * inject_Z 100 + (1 # 2))%Q in
  Qmake (if Qle_bool 0 x then n else - n) 100.

(** The number the list shows before the letter h. *)
Definition displayedHours (note : Note) : option Q :=
  option_map toFixed2 (durationHours note).

(* ================================================================== *)
(** * Persistence (App.tsx, lines 35-54) *)
(* ================================================================== *)

Module Persistence.

(** [localStorage]: the value stored under each key. *)
Definition Storage : Type := string -> option string.

Definition emptyStorage : Storage := fun _ => None.

Definition storageKey : string := "timenotes_v3".

Definition getItem (ls : Storage) (key : string) : option string := ls key.

Section Platform.

(** [JSON.stringify] on a [Note[]]. *)
Variable stringify : list Note -> string.
(** [JSON.parse], read at type [Note[]]; [None] when it throws.  A text
    that parses to something else than an array of notes is outside the
    model. *)
Variable parse : string -> option (list Note).
(** Whether [setItem] throws for this value (quota exceeded). *)
Variable quotaExceeded : string -> bool.

(** [localStorage.setItem(key, value)]; [None] when it throws. *)
Definition setItem (ls : Storage) (key value : string) : option Storage :=
  if quotaExceeded value then None
  else Some (fun k => if String.eqb k key then Some value else ls k).

(** The effect run on mount (lines 35-45). *)
Definition loadEffect (ls : Storage) : list Effect :=
  match getItem ls storageKey with
  | Some savedNotes =>
      if JS.truthy savedNotes then
        match parse savedNotes with
        | Some parsed => [setNotes (fun _ => parsed)]
        | None => [consoleError "Failed to load notes from localStorage"]
        end
      else []
  | None => []
  end.

(** The effect run when [notes] changes (lines 48-54). *)
Definition saveEffect (notes : list Note) (ls : Storage) : Storage * list Effect :=
  match setItem ls storageKey (stringify notes) with
  | Some ls' => (ls', [])
  | None => (ls, [consoleError "Failed to save notes to localStorage"])
  end.

(** [save(notes)] and [load()] of the specification. *)
Definition save (notes : list Note) (ls : Storage) : Storage :=
  fst (saveEffect notes ls).

Definition load (ls : Storage) : list Note :=
  State.notes (run (loadEffect ls) initialState).

(** A conforming serializer reads back what it wrote, and never writes the
    empty text. *)
Definition conforming : Prop :=
  (forall notes, parse (stringify notes) = Some notes) /\
  (forall notes, stringify notes <> "").

End Platform.
End Persistence.

(* ================================================================== *)
(** * Collations and order *)
(* ================================================================== *)

(** On times of day the collation of the locale orders as the code units
    do: the digits collate in numeric order and the colon stands at the
    same place in both. *)
Definition collatesTimes (localeCompare : string -> string -> Z) : Prop :=
  forall a b, isTime a = true -> isTime b = true ->
    (localeCompare a b ?= 0) = String.compare a b.

(** Two collations.  The first orders all strings by code units. *)
Definition codeUnitCollation (a b : string) : Z :=
  match String.compare a b with
  | Lt => -1
  | Eq => 0
  | Gt => 1
  end.

(** The second ignores the case of the letters A to Z, as the collations of
    most locales do at their first level; it puts "a" before "B", which the
    code units do not. *)
Definition toLower (c : ascii) : ascii :=
  let n := N_of_ascii c in
  if ((65 <=? n) && (n <=? 90))%N then ascii_of_N (n + 32) else c.

Fixpoint lowerCase (s : string) : string :=
  match s with
  | EmptyString => EmptyString
  | String c s' => String (toLower c) (lowerCase s')
  end.

Definition caseBlindCollation (a b : string) : Z :=
  codeUnitCollation (lowerCase a) (lowerCase b).

(** [a] does not start after [b], in string order. *)
Definition startsNoLater (a b : Note) : Prop :=
  String.leb (Note.startTime a) (Note.startTime b) = true.

(** The notes of the collection that start at [t], in the order of the
    collection. *)
Definition startingAt (t : string) (notes : list Note) : list Note :=
  filter (fun note => String.eqb (Note.startTime note) t) notes.

Definition timesValid (notes : list Note) : Prop :=
  Forall (fun note => isTime (Note.startTime note) = true) notes.

(** The operations that carry a start time carry a time of day. *)
Definition timedOps (ops : list Op) : Prop :=
  Forall (fun op =>
            match op with
            | Add _ startTime _ _ | Update _ startTime _ _ =>
                isTime startTime = true
            | Remove _ | Clear => True
            end) ops.

(* ================================================================== *)
(** * JSON texts of note arrays *)
(* ================================================================== *)

Module JSON.

Definition quotationMark : ascii := "034"%char.
Definition reverseSolidus : ascii := "092"%char.

(** The lower-case hexadecimal digit of a value below 16. *)
Definition hexDigit (n : N) : ascii :=
  if (n <? 10)%N then ascii_of_N (48 + n) else ascii_of_N (87 + n).

Definition hexValue (c : ascii) : option N :=
  let n := N_of_ascii c in
  if ((48 <=? n) && (n <=? 57))%N then Some (n - 48)%N
  else if ((97 <=? n) && (n <=? 102))%N then Some (n - 87)%N
  else if ((65 <=? n) && (n <=? 70))%N then Some (n - 55)%N
  else None.

(** [QuoteJSONString], one code unit: the short escapes, [\u00XX] for the
    other control characters, the code unit itself otherwise.  The writers
    take the text that follows as [k]. *)
Definition putChar (c : ascii) (k : string) : string :=
  let n := N_of_ascii c in
  let escape e := String reverseSolidus (String e k) in
  if (n =? 8)%N then escape "b"%char
  else if (n =? 9)%N then escape "t"%char
  else if (n =? 10)%N then escape "n"%char
  else if (n =? 12)%N then escape "f"%char
  else if (n =? 13)%N then escape "r"%char
  else if (n =? 34)%N then escape quotationMark
  else if (n =? 92)%N then escape reverseSolidus
  else if (n <? 32)%N then
    String reverseSolidus (String "u" (String "0" (String "0"
      (String (hexDigit (n / 16)) (String (hexDigit (n mod 16)) k)))))
  else String c k.

Fixpoint putChars (s : string) (k : string) : string :=
  match s with
  | EmptyString => k
  | String c s' => putChar c (putChars s' k)
  end.

Definition putString (s : string) (k : string) : string :=
  String quotationMark (putChars s (String quotationMark k)).

Definition putNumber (n : Z) (k : string) : string := JS.toString n ++ k.

Definition putKey (name : string) (k : string) : string :=
  putString name (String ":" k).

Definition putNote (note : Note) (k : string) : string :=
  String "{"
    (putKey "id" (putNumber (Note.id note) (String ","
    (putKey "startTime" (putString (Note.startTime note) (String ","
    (putKey "endTime" (putString (Note.endTime note) (String ","
    (putKey "text" (putString (Note.text note) (String "}" k)))))))))))).

Fixpoint putMoreNotes (notes : list Note) (k : string) : string :=
  match notes with
  | [] => k
  | note :: rest => String "," (putNote note (putMoreNotes rest k))
  end.

(** [JSON.stringify(notes)] for a [Note[]]. *)
Definition stringify (notes : list Note) : string :=
  match notes with
  | [] => "[]"
  | note :: rest => String "[" (putNote note (putMoreNotes rest "]"))
  end.

(** The readers give the value read and the text that follows it. *)
Definition unescape (e : ascii) : option ascii :=
  if Ascii.eqb e "b" then Some "008"%char
  else if Ascii.eqb e "t" then Some "009"%char
  else if Ascii.eqb e "n" then Some "010"%char
  else if Ascii.eqb e "f" then Some "012"%char
  else if Ascii.eqb e "r" then Some "013"%char
  else if Ascii.eqb e quotationMark then Some quotationMark
  else if Ascii.eqb e reverseSolidus then Some reverseSolidus
  else if Ascii.eqb e "/" then Some "/"%char
  else None.

(** [\uXXXX] for a code unit below 256. *)
Definition unescapeUnicode (h1 h2 h3 h4 : ascii) : option ascii :=
  match hexValue h1, hexValue h2, hexValue h3, hexValue h4 with
  | Some 0%N, Some 0%N, Some a, Some b => Some (ascii_of_N (16 * a + b))
  | _, _, _, _ => None
  end.

Definition consChar (c : ascii) (r : option (string * string)) :
    option (string * string) :=
  match r with
  | Some (v, rest) => Some (String c v, rest)
  | None => None
  end.

Fixpoint getChars (s : string) : option (string * string) :=
  match s with
  | EmptyString => None
  | String c rest =>
      if Ascii.eqb c quotationMark then Some (EmptyString, rest)
      else if Ascii.eqb c reverseSolidus then
        match rest with
        | String e rest' =>
            match unescape e with
            | Some c' => consChar c' (getChars rest')
            | None =>
                if Ascii.eqb e "u" then
                  match rest' with
                  | String h1 (String h2 (String h3 (String h4 rest''))) =>
                      match unescapeUnicode h1 h2 h3 h4 with
                      | Some c' => consChar c' (getChars rest'')
                      | None => None
                      end
                  | _ => None
                  end
                else None
            end
        | EmptyString => None
        end
      else if (N_of_ascii c <? 32)%N then None
      else consChar c (getChars rest)
  end.

Definition getString (s : string) : option (string * string) :=
  match s with
  | String c rest => if Ascii.eqb c quotationMark then getChars rest else None
  | EmptyString => None
  end.

Fixpoint getDigits (s : string) : string * string :=
  match s with
  | EmptyString => (EmptyString, EmptyString)
  | String c rest =>
      if isDigit c
      then let (digits, rest') := getDigits rest in (String c digits, rest')
      else (EmptyString, s)
  end.

Definition getNatural (s : string) : option (Z * string) :=
  match getDigits s with
  | (EmptyString, _) => None
  | (digits, rest) => option_map (fun n => (n, rest)) (JS.Number digits)
  end.

Definition getNumber (s : string) : option (Z * string) :=
  match s with
  | String "-" rest =>
      option_map (fun '(n, r) => (Z.opp n, r)) (getNatural rest)
  | _ => getNatural s
  end.

Fixpoint expect (literal s : string) : option string :=
  match literal, s with
  | EmptyString, _ => Some s
  | String a literal', String b s' =>
      if Ascii.eqb a b then expect literal' s' else None
  | String _ _, EmptyString => None
  end.

Definition bind {A B : Type} (x : option A) (f : A -> option B) : option B :=
  match x with
  | Some a => f a
  | None => None
  end.

Definition getNote (s : string) : option (Note * string) :=
  bind (expect (String "{" (putKey "id" "")) s) (fun s =>
  bind (getNumber s) (fun '(id, s) =>
  bind (expect (String "," (putKey "startTime" "")) s) (fun s =>
  bind (getString s) (fun '(startTime, s) =>
  bind (expect (String "," (putKey "endTime" "")) s) (fun s =>
  bind (getString s) (fun '(endTime, s) =>
  bind (expect (String "," (putKey "text" "")) s) (fun s =>
  bind (getString s) (fun '(text, s) =>
  bind (expect "}" s) (fun s =>
  Some (Note.make id startTime endTime text, s)))))))))).

Fixpoint getMoreNotes (fuel : nat) (s : string) : option (list Note) :=
  match fuel with
  | O => None
  | S fuel' =>
      match s with
      | String "]" EmptyString => Some []
      | String "," rest =>
          bind (getNote rest) (fun '(note, r) =>
          option_map (cons note) (getMoreNotes fuel' r))
      | _ => None
      end
  end.

(** [JSON.parse] on the texts that [stringify] writes: no white space, the
    keys in the order of the interface.  Other texts give [None]. *)
Definition parse (s : string) : option (list Note) :=
  match s with
  | String "[" (String "]" EmptyString) => Some []
  | String "[" rest =>
      bind (getNote rest) (fun '(note, r) =>
      option_map (cons note) (getMoreNotes (String.length s) r))
  | _ => None
  end.

End JSON.

(* ================================================================== *)
(** * The rendered controls (App.tsx, lines 134-258) *)
(* ================================================================== *)

(** What the user can do with the rendered page: type into one of the three
    inputs, submit the form, and click a button.  "cancel" is rendered while
    a note is being edited, "Delete All" while there are notes, and one
    edit and one delete button per listed note. *)
Inductive Event : Type :=
| ChangeStartTime (value : string)
| ChangeEndTime (value : string)
| ChangeText (value : string)
| Submit (now : Z)
| ClickCancel
| ClickDeleteAll (confirmed : bool)
| ClickEdit (index : nat)
| ClickDelete (index : nat).

Section Controls.

Variable localeCompare : string -> string -> Z.

(** The handler the page runs for an event, in the state it was rendered
    from.  A button that is not rendered cannot be clicked. *)
Definition handle (st : State) (ev : Event) : list Effect :=
  match ev with
  | ChangeStartTime value => [setStartTime value]
  | ChangeEndTime value => [setEndTime value]
  | ChangeText value => [setText value]
  | Submit now => handleSubmit localeCompare now st
  | ClickCancel =>
      match State.editingNoteId st with
      | Some _ => handleCancelEdit
      | None => []
      end
  | ClickDeleteAll confirmed =>
      match State.notes st with
      | [] => []
      | _ :: _ => handleDeleteAll confirmed
      end
  | ClickEdit index =>
      match nth_error (State.notes st) index with
      | Some note => handleEdit note
      | None => []
      end
  | ClickDelete index =>
      match nth_error (State.notes st) index with
      | Some note => handleDelete (Note.id note)
      | None => []
      end
  end.

Definition dispatch (st : State) (ev : Event) : State :=
  run (handle st ev) st.

Definition runEvents (events : list Event) (st : State) : State :=
  fold_left dispatch events st.

End Controls.

(** What [handleSubmit] requires of a draft, as a test on a note. *)
Definition passesValidation (note : Note) : bool :=
  JS.truthy (Note.startTime note) && JS.truthy (Note.endTime note)
  && JS.truthy (JS.trim (Note.text note))
  && String.ltb (Note.startTime note) (Note.endTime note).

(** The time inputs hold the empty string or a time of day. *)
Definition emptyOrTime (s : string) : bool :=
  match s with
  | EmptyString => true
  | _ => isTime s
  end.

Definition timeInputs (events : list Event) : Prop :=
  Forall (fun ev =>
            match ev with
            | ChangeStartTime value | ChangeEndTime value =>
                emptyOrTime value = true
            | _ => True
            end) events.

(** What the sortedness of the list rests on, kept by every event: listed
    notes start and end at times of day, the list is sorted, and the two
    time inputs hold the empty string or a time of day. *)
Definition timedAndSorted (st : State) : Prop :=
  Forall (fun note => isTime (Note.startTime note) = true /\
                      isTime (Note.endTime note) = true) (State.notes st) /\
  StronglySorted startsNoLater (State.notes st) /\
  emptyOrTime (State.startTime st) = true /\
  emptyOrTime (State.endTime st) = true.

(** Every submit reads a clock value above the one read before it, the
    first one above [last]. *)
Fixpoint clockIncreases (last : Z) (events : list Event) : bool :=
  match events with
  | [] => true
  | Submit now :: rest => (last <? now) && clockIncreases now rest
  | _ :: rest => clockIncreases last rest
  end.

(* ================================================================== *)
(** * The component with its storage (App.tsx, lines 26-54) *)
(* ================================================================== *)

Module Session.

Record World : Type := make {
  app : State;
  storage : Persistence.Storage
}.

Section Host.

Variable localeCompare : string -> string -> Z.
Variable stringify : list Note -> string.
Variable parse : string -> option (list Note).
Variable quotaExceeded : string -> bool.

(** The setter calls of a handler or effect are applied and the component
    renders again; the save effect depends on [notes] and runs after the
    render when [setNotes] was called (every call site passes a new
    array). *)
Definition commit (effects : list Effect) (w : World) : World :=
  let st := run effects (app w) in
  if callsSetNotes effects
  then make st (Persistence.save stringify quotaExceeded (State.notes st) (storage w))
  else make st (storage w).

(** Mount: after the first render, whose [notes] is the empty array, the
    load effect runs and then the save effect, which writes that empty
    array; the notes that the load effect set are rendered and saved
    next.  Each effect runs once per render that calls for it, as in a
    production build. *)
Definition mount (ls : Persistence.Storage) : World :=
  let effects := Persistence.loadEffect parse ls in
  let first := Persistence.save stringify quotaExceeded [] ls in
  commit effects (make initialState first).

Definition dispatch (w : World) (ev : Event) : World :=
  commit (handle localeCompare (app w) ev) w.

Definition runEvents (events : list Event) (w : World) : World :=
  fold_left dispatch events w.

End Host.
End Session.

(* ================================================================== *)
(** * Facts about the built-ins *)
(* ================================================================== *)

Lemma string_leb_trans (a b c : string) :
  String.leb a b = true -> String.leb b c = true -> String.leb a c = true.
Proof.
  unfold String.leb.
  revert b c; induction a as [|x a IH]; intros [|y b] [|z c]; simpl; try easy.
  unfold Ascii.compare.
  destruct (N.compare_spec (N_of_ascii x) (N_of_ascii y)) as [Hxy|Hxy|Hxy];
    destruct (N.compare_spec (N_of_ascii y) (N_of_ascii z)) as [Hyz|Hyz|Hyz];
    destruct (N.compare_spec (N_of_ascii x) (N_of_ascii z)) as [Hxz|Hxz|Hxz];
    try easy; try lia.
  apply IH.
Qed.

Lemma string_compare_refl (a : string) : String.compare a a = Eq.
Proof.
  induction a as [|x a IH]; simpl; [reflexivity|].
  unfold Ascii.compare. now rewrite N.compare_refl.
Qed.

Lemma string_leb_refl (a : string) : String.leb a a = true.
Proof. unfold String.leb. now rewrite string_compare_refl. Qed.

Section SortFacts.

Context {A : Type} (compareFn : A -> A -> Z).

Lemma insert_perm (x : A) (l : list A) :
  Permutation (JS.insert compareFn x l) (x :: l).
Proof.
  induction l as [|y l IH]; simpl; [reflexivity|].
  destruct (compareFn x y <=? 0); [reflexivity|].
  rewrite IH. apply perm_swap.
Qed.

Lemma sort_perm (l : list A) : Permutation (JS.sort compareFn l) l.
Proof.
  induction l as [|x l IH]; simpl; [constructor|].
  rewrite insert_perm. now constructor.
Qed.

(** Keeping the elements that satisfy [f] commutes with an insertion when
    [x] is never placed behind an element that satisfies [f] as [x] does. *)
Lemma insert_filter (f : A -> bool) (x : A) (l : list A) :
  (forall y, In y l -> f x = true -> f y = true -> compareFn x y <= 0) ->
  filter f (JS.insert compareFn x l) = filter f (x :: l).
Proof.
  induction l as [|y l IH]; intros Htie; [reflexivity|].
  cbn [JS.insert].
  destruct (compareFn x y <=? 0) eqn:Hxy; [reflexivity|].
  apply Z.leb_gt in Hxy.
  assert (IH' : filter f (JS.insert compareFn x l) = filter f (x :: l)).
  { apply IH. intros z Hz. apply Htie. now right. }
  cbn [filter] in *. rewrite IH'.
  destruct (f x) eqn:Hfx; [|reflexivity].
  destruct (f y) eqn:Hfy; [|reflexivity].
  exfalso. specialize (Htie y (or_introl eq_refl) eq_refl Hfy). lia.
Qed.

(** Stability: among the elements that tie, the order of the source stays. *)
Lemma sort_stable (f : A -> bool) (l : list A) :
  (forall x y, In x l -> In y l -> f x = true -> f y = true ->
     compareFn x y <= 0) ->
  filter f (JS.sort compareFn l) = filter f l.
Proof.
  induction l as [|x l IH]; intros Htie; [reflexivity|].
  cbn [JS.sort]. rewrite insert_filter.
  - cbn [filter]. rewrite IH; [reflexivity|].
    intros a b Ha Hb. apply Htie; now right.
  - intros y Hy. apply Htie; [now left|].
    right. eapply Permutation_in; [apply sort_perm|exact Hy].
Qed.

(** On a domain [P] where the comparator decides a total preorder [le]. *)
Context (P : A -> Prop) (le : A -> A -> Prop).
Hypothesis compareFn_le :
  forall a b, P a -> P b -> (compareFn a b <= 0 <-> le a b).
Hypothesis le_total : forall a b, P a -> P b -> le a b \/ le b a.
Hypothesis le_trans : forall a b c, le a b -> le b c -> le a c.

Lemma insert_sorted (x : A) (l : list A) :
  P x -> Forall P l -> StronglySorted le l ->
  StronglySorted le (JS.insert compareFn x l).
Proof.
  intros Px. induction l as [|y l IH]; intros HP Hs; simpl.
  - repeat constructor.
  - inversion HP as [|? ? Py HPl]; subst.
    inversion Hs as [|? ? Hsl Hy]; subst.
    destruct (compareFn x y <=? 0) eqn:Hxy.
    + apply Z.leb_le, compareFn_le in Hxy; trivial.
      constructor; [assumption|].
      constructor; [assumption|].
      eapply Forall_impl; [|exact Hy]. intros z Hz. now apply le_trans with y.
    + apply Z.leb_gt in Hxy.
      assert (Hyx : le y x).
      { destruct (le_total x y Px Py) as [H|H]; [|exact H].
        apply compareFn_le in H; trivial. lia. }
      constructor; [now apply IH|].
      apply Forall_forall. intros z Hz.
      apply (Permutation_in _ (insert_perm x l)) in Hz.
      destruct Hz as [<-|Hz]; [exact Hyx|].
      rewrite Forall_forall in Hy. now apply Hy.
Qed.

Lemma sort_Forall (l : list A) : Forall P l -> Forall P (JS.sort compareFn l).
Proof.
  intros H. eapply Permutation_Forall; [|exact H].
  apply Permutation_sym, sort_perm.
Qed.

Lemma sort_sorted (l : list A) :
  Forall P l -> StronglySorted le (JS.sort compareFn l).
Proof.
  induction l as [|x l IH]; intros HP; simpl; [constructor|].
  inversion HP; subst.
  apply insert_sorted; auto using sort_Forall.
Qed.

(** Sorting leaves a sorted array as it is. *)
Lemma sort_sorted_id (l : list A) :
  Forall P l -> StronglySorted le l -> JS.sort compareFn l = l.
Proof.
  induction l as [|x l IH]; intros HP Hs; [reflexivity|].
  inversion HP as [|? ? Px HPl]; subst.
  inversion Hs as [|? ? Hsl Hx]; subst.
  cbn [JS.sort]. rewrite IH by assumption.
  destruct l as [|y l]; [reflexivity|].
  cbn [JS.insert].
  inversion Hx as [|? ? Hxy _]; subst.
  inversion HPl as [|? ? Py _]; subst.
  apply compareFn_le, Z.leb_le in Hxy; trivial.
  now rewrite Hxy.
Qed.

End SortFacts.

(* ================================================================== *)
(** * Times of day *)
(* ================================================================== *)

Lemma digitsOf_Number s n : s <> "" -> digitsOf s n -> JS.Number s = Some n.
Proof.
  intros Hs (d & Hd & <-). unfold JS.Number.
  destruct s; [congruence|]. now rewrite Hd.
Qed.

Lemma digitsOf_zero s n : digitsOf s n -> digitsOf (String "0" s) n.
Proof.
  intros (d & Hd & <-). exists (Decimal.D0 d). simpl. now rewrite Hd.
Qed.

Lemma digit_not_colon c d d' :
  uint_of_char c (Some d) = Some d' -> Ascii.eqb c ":" = false.
Proof.
  intros H. apply uint_of_char_spec in H.
  decompose [or and] H; subst; reflexivity.
Qed.

Lemma split_digits s n : digitsOf s n -> JS.split ":" s = [s].
Proof.
  intros (d & Hd & _). revert d Hd.
  induction s as [|c s IH]; intros d Hd; [reflexivity|].
  simpl in Hd. destruct (NilEmpty.uint_of_string s) as [d0|] eqn:Hs;
    [|discriminate].
  simpl. rewrite (digit_not_colon _ _ _ Hd). now rewrite (IH d0).
Qed.

Lemma split_digits_colon s n rest :
  digitsOf s n -> JS.split ":" (s ++ String ":" rest) = s :: JS.split ":" rest.
Proof.
  intros (d & Hd & _). revert d Hd.
  induction s as [|c s IH]; intros d Hd; [reflexivity|].
  simpl in Hd. destruct (NilEmpty.uint_of_string s) as [d0|] eqn:Hs;
    [|discriminate].
  simpl. rewrite (digit_not_colon _ _ _ Hd). now rewrite (IH d0).
Qed.

Lemma toString_digits n : 0 <= n -> digitsOf (JS.toString n) n.
Proof.
  intros Hn. unfold JS.toString.
  destruct n as [|p|p]; [now exists (Decimal.D0 Decimal.Nil)| |lia].
  exists (Pos.to_uint p). split.
  - simpl. unfold NilZero.string_of_uint.
    pose proof (Unsigned.to_uint_nonnil p) as Hnil.
    destruct (Pos.to_uint p) eqn:E; try apply NilEmpty.usu. congruence.
  - unfold Z.of_uint. now rewrite Unsigned.of_to.
Qed.

Lemma toString_nonempty n : JS.toString n <> "".
Proof.
  unfold JS.toString.
  assert (H : forall d, NilZero.string_of_uint d <> "") by now intros [].
  destruct (Z.to_int n); simpl; [apply H|discriminate].
Qed.

Lemma padStart_digits n :
  0 <= n ->
  digitsOf (JS.padStart 2 "0" (JS.toString n)) n /\
  JS.padStart 2 "0" (JS.toString n) <> "".
Proof.
  intros Hn. pose proof (toString_digits n Hn) as Hd.
  pose proof (toString_nonempty n) as Hne.
  unfold JS.padStart.
  destruct (JS.toString n) as [|c [|c' s]]; [congruence| |]; simpl.
  - split; [now apply digitsOf_zero|discriminate].
  - replace (String.length s - 0)%nat with (String.length s) by lia.
    split; [exact Hd|discriminate].
Qed.

(** What [timeToMinutes] makes of two zero-padded numbers around a colon. *)
Lemma timeToMinutes_padded h m :
  0 <= h -> 0 <= m ->
  timeToMinutes
    (JS.padStart 2 "0" (JS.toString h) ++ ":" ++ JS.padStart 2 "0" (JS.toString m))
  = Some (h * 60 + m).
Proof.
  intros Hh Hm.
  destruct (padStart_digits h Hh) as [Dh Nh].
  destruct (padStart_digits m Hm) as [Dm Nm].
  unfold timeToMinutes.
  change (?a ++ ":" ++ ?b) with (a ++ String ":" b).
  rewrite (split_digits_colon _ _ _ Dh), (split_digits _ _ Dm). simpl map.
  now rewrite (digitsOf_Number _ _ Nh Dh), (digitsOf_Number _ _ Nm Dm).
Qed.

(** C10. For every integer [m] from 0 to 1439, parsing the zero-padded
    text that [minutesToTime] writes for [m] gives [m] back. *)
Theorem timeToMinutes_minutesToTime (m : Z) :
  0 <= m <= 1439 -> timeToMinutes (minutesToTime m) = Some m.
Proof.
  intros Hm. unfold minutesToTime, JS.floor_div, JS.remainder. cbv zeta.
  rewrite Z.rem_mod_nonneg by lia.
  rewrite timeToMinutes_padded.
  - f_equal. pose proof (Z.div_mod m 60). lia.
  - apply Z.div_pos; lia.
  - apply Z.mod_pos_bound; lia.
Qed.

Lemma isDigit_cases c :
  isDigit c = true ->
  In c ["0"; "1"; "2"; "3"; "4"; "5"; "6"; "7"; "8"; "9"]%char.
Proof.
  destruct c as [[|] [|] [|] [|] [|] [|] [|] [|]]; intros H;
    try discriminate H; simpl; tauto.
Qed.

Lemma Number_two_digits a b :
  isDigit a = true -> isDigit b = true ->
  JS.Number (String a (String b "")) = Some (10 * digitValue a + digitValue b).
Proof.
  intros Ha Hb. apply isDigit_cases in Ha, Hb. simpl in Ha, Hb.
  decompose [or] Ha; try contradiction; subst a;
    decompose [or] Hb; try contradiction; subst b; reflexivity.
Qed.

Lemma isDigit_not_colon c : isDigit c = true -> Ascii.eqb c ":" = false.
Proof.
  intros H. apply isDigit_cases in H. simpl in H.
  decompose [or] H; try contradiction; subst c; reflexivity.
Qed.

(** On a time of day [timeToMinutes] is the minutes since midnight. *)
Lemma timeToMinutes_isTime t :
  isTime t = true -> timeToMinutes t = Some (spec_minutes t).
Proof.
  unfold isTime.
  destruct t as [|a [|b [|c [|d [|e [|]]]]]]; try discriminate.
  intros H. do 6 (apply andb_true_iff in H as [H ?]).
  match goal with Hc : Ascii.eqb c ":" = true |- _ =>
    apply Ascii.eqb_eq in Hc; subst c end.
  unfold timeToMinutes, spec_minutes. cbn [JS.split].
  rewrite (isDigit_not_colon a), (isDigit_not_colon b),
    (isDigit_not_colon d), (isDigit_not_colon e) by assumption.
  rewrite Ascii.eqb_refl. cbn [map].
  now rewrite !Number_two_digits by assumption.
Qed.

Lemma spec_minutes_range t :
  isTime t = true -> 0 <= spec_minutes t <= 1439.
Proof.
  unfold isTime.
  destruct t as [|a [|b [|c [|d [|e [|]]]]]]; try discriminate.
  intros H. do 6 (apply andb_true_iff in H as [H ?]).
  unfold spec_minutes.
  assert (Hd : forall x, isDigit x = true -> 0 <= digitValue x <= 9).
  { intros x Hx. unfold isDigit in Hx. apply andb_true_iff in Hx as [Hlo Hhi].
    apply N.leb_le in Hlo, Hhi. unfold digitValue. lia. }
  repeat match goal with Hx : isDigit _ = true |- _ => apply Hd in Hx end.
  repeat match goal with Hlt : (_ <? _) = true |- _ => apply Z.ltb_lt in Hlt end.
  lia.
Qed.

(** What [minutesToTime] writes for a minute of the day is a time of day. *)
Lemma minutesToTime_isTime m :
  0 <= m <= 1439 -> isTime (minutesToTime m) = true.
Proof.
  intros Hm.
  assert (Hall : forallb (fun n => isTime (minutesToTime (Z.of_nat n)))
                   (seq 0 1440) = true) by (vm_compute; reflexivity).
  rewrite forallb_forall in Hall.
  specialize (Hall (Z.to_nat m)). rewrite Z2Nat.id in Hall by lia.
  apply Hall, in_seq. lia.
Qed.

(** C4. For a note whose start and end are times of day, [timeToMinutes]
    gives the minutes since midnight of each, and the duration in hours is
    their difference divided by 60; from 09:00 to 10:30 it is 1.5. *)
Theorem duration_is_minutes_over_60 (note : Note) :
  isTime (Note.startTime note) = true ->
  isTime (Note.endTime note) = true ->
  timeToMinutes (Note.startTime note) = Some (spec_minutes (Note.startTime note)) /\
  timeToMinutes (Note.endTime note) = Some (spec_minutes (Note.endTime note)) /\
  durationHours note =
    Some (inject_Z (spec_minutes (Note.endTime note)
                    - spec_minutes (Note.startTime note)) / inject_Z 60)%Q /\
  (Note.startTime note = "09:00" -> Note.endTime note = "10:30" ->
   exists hours, durationHours note = Some hours /\ (hours == 3 # 2)%Q).
Proof.
  intros Hs He.
  pose proof (timeToMinutes_isTime _ Hs) as Ts.
  pose proof (timeToMinutes_isTime _ He) as Te.
  split; [exact Ts|]. split; [exact Te|].
  split.
  - unfold durationHours. now rewrite Ts, Te.
  - intros Es Ee. unfold durationHours. rewrite Es, Ee.
    eexists. split; reflexivity.
Qed.

(* ================================================================== *)
(** * The note store *)
(* ================================================================== *)

Lemma codeUnitCollation_collatesTimes : collatesTimes codeUnitCollation.
Proof.
  intros a b _ _. unfold codeUnitCollation.
  now destruct (String.compare a b).
Qed.

Lemma toLower_digit c : isDigit c = true -> toLower c = c.
Proof.
  intros H. apply isDigit_cases in H. simpl in H.
  decompose [or] H; try contradiction; subst c; reflexivity.
Qed.

Lemma lowerCase_time t : isTime t = true -> lowerCase t = t.
Proof.
  unfold isTime.
  destruct t as [|a [|b [|c [|d [|e [|]]]]]]; try discriminate.
  intros H. do 6 (apply andb_true_iff in H as [H ?]).
  match goal with Hc : Ascii.eqb c ":" = true |- _ =>
    apply Ascii.eqb_eq in Hc; subst c end.
  cbn [lowerCase].
  rewrite (toLower_digit a), (toLower_digit b), (toLower_digit d),
    (toLower_digit e) by assumption.
  reflexivity.
Qed.

Lemma caseBlindCollation_collatesTimes : collatesTimes caseBlindCollation.
Proof.
  intros a b Ha Hb. unfold caseBlindCollation.
  rewrite (lowerCase_time _ Ha), (lowerCase_time _ Hb).
  now apply codeUnitCollation_collatesTimes.
Qed.

Lemma hasId_false (id : Z) (notes : list Note) :
  hasId id notes = false <-> ~ In id (ids notes).
Proof.
  unfold hasId, ids. induction notes as [|n notes IH]; simpl.
  - tauto.
  - rewrite orb_false_iff, IH, Z.eqb_neq. tauto.
Qed.

Section StoreFacts.

Variable localeCompare : string -> string -> Z.

Let sortNotes := JS.sort (NoteStore.byStartTime localeCompare).
Let validStart (note : Note) : Prop := isTime (Note.startTime note) = true.

Lemma add_perm now s e t prev :
  Permutation (NoteStore.add localeCompare now s e t prev)
              (Note.make now s e t :: prev).
Proof.
  unfold NoteStore.add. rewrite sort_perm.
  apply Permutation_sym, Permutation_cons_append.
Qed.

Lemma update_perm id s e t prev :
  Permutation (NoteStore.update localeCompare id s e t prev)
              (map (NoteStore.replaceFields id s e t) prev).
Proof. apply sort_perm. Qed.

Lemma replaceFields_id id s e t note :
  Note.id (NoteStore.replaceFields id s e t note) = Note.id note.
Proof.
  unfold NoteStore.replaceFields. now destruct (Note.id note =? id).
Qed.

Lemma map_replaceFields_ids id s e t prev :
  ids (map (NoteStore.replaceFields id s e t) prev) = ids prev.
Proof.
  unfold ids. rewrite map_map. apply map_ext. apply replaceFields_id.
Qed.

Lemma map_replaceFields_absent id s e t prev :
  hasId id prev = false ->
  map (NoteStore.replaceFields id s e t) prev = prev.
Proof.
  unfold hasId. induction prev as [|n prev IH]; simpl; [reflexivity|].
  rewrite orb_false_iff. intros [Hn Hprev].
  unfold NoteStore.replaceFields at 1. rewrite Hn. f_equal. now apply IH.
Qed.

Lemma remove_ids id prev :
  ids (NoteStore.remove id prev) = filter (fun i => negb (i =? id)) (ids prev).
Proof.
  unfold ids, NoteStore.remove.
  induction prev as [|n prev IH]; simpl; [reflexivity|].
  destruct (Note.id n =? id); simpl; now rewrite IH.
Qed.

Lemma remove_absent id prev :
  hasId id prev = false -> NoteStore.remove id prev = prev.
Proof.
  unfold hasId, NoteStore.remove.
  induction prev as [|n prev IH]; simpl; [reflexivity|].
  rewrite orb_false_iff. intros [-> Hprev]. simpl. f_equal. now apply IH.
Qed.

Lemma hasId_remove id prev : hasId id (NoteStore.remove id prev) = false.
Proof.
  unfold hasId, NoteStore.remove.
  induction prev as [|n prev IH]; simpl; [reflexivity|].
  destruct (Note.id n =? id) eqn:Hn; simpl; [exact IH|].
  now rewrite Hn.
Qed.

(** Each operation keeps the ids distinct, an [Add] provided its clock value
    is new. *)
Lemma applyOp_NoDup notes op :
  NoDup (ids notes) ->
  match op with Add now _ _ _ => hasId now notes = false | _ => True end ->
  NoDup (ids (applyOp localeCompare notes op)).
Proof.
  intros Hnd Hfresh. destruct op as [now s e t|id s e t|id|]; simpl.
  - apply hasId_false in Hfresh.
    eapply Permutation_NoDup.
    + apply Permutation_sym, Permutation_map, add_perm.
    + simpl. now constructor.
  - eapply Permutation_NoDup.
    + apply Permutation_sym, Permutation_map, update_perm.
    + fold (ids (map (NoteStore.replaceFields id s e t) notes)).
      now rewrite map_replaceFields_ids.
  - rewrite remove_ids. now apply NoDup_filter.
  - constructor.
Qed.

(** With a collation that orders times of day as their code units do. *)
Hypothesis collates : collatesTimes localeCompare.

Lemma byStartTime_le a b :
  validStart a -> validStart b ->
  (NoteStore.byStartTime localeCompare a b <= 0 <-> startsNoLater a b).
Proof.
  unfold validStart, NoteStore.byStartTime, startsNoLater, String.leb.
  intros Ha Hb. rewrite <- (collates _ _ Ha Hb).
  destruct (Z.compare_spec (localeCompare (Note.startTime a) (Note.startTime b)) 0);
    split; intros; try discriminate; try reflexivity; lia.
Qed.

Lemma startsNoLater_total a b : startsNoLater a b \/ startsNoLater b a.
Proof. apply String.leb_total. Qed.

Lemma startsNoLater_trans a b c :
  startsNoLater a b -> startsNoLater b c -> startsNoLater a c.
Proof. apply string_leb_trans. Qed.

Lemma sortNotes_sorted notes :
  timesValid notes -> StronglySorted startsNoLater (sortNotes notes).
Proof.
  apply (sort_sorted _ validStart startsNoLater byStartTime_le).
  - intros; apply startsNoLater_total.
  - exact startsNoLater_trans.
Qed.

Lemma sortNotes_sorted_id notes :
  timesValid notes -> StronglySorted startsNoLater notes ->
  sortNotes notes = notes.
Proof. apply (sort_sorted_id _ validStart startsNoLater byStartTime_le). Qed.

Lemma sortNotes_stable t notes :
  timesValid notes -> startingAt t (sortNotes notes) = startingAt t notes.
Proof.
  intros Hv. apply sort_stable. intros x y Hx Hy Ex Ey.
  apply String.eqb_eq in Ex, Ey.
  unfold timesValid in Hv. rewrite Forall_forall in Hv.
  apply byStartTime_le; [now apply Hv|now apply Hv|].
  unfold startsNoLater. rewrite Ex, Ey. apply string_leb_refl.
Qed.

Lemma timesValid_add now s e t prev :
  timesValid prev -> isTime s = true ->
  timesValid (prev ++ [Note.make now s e t]).
Proof.
  intros Hp Hs. apply Forall_app. split; [exact Hp|]. now repeat constructor.
Qed.

Lemma timesValid_replace id s e t prev :
  timesValid prev -> isTime s = true ->
  timesValid (map (NoteStore.replaceFields id s e t) prev).
Proof.
  intros Hp Hs. apply Forall_map. eapply Forall_impl; [|exact Hp].
  intros n Hn. unfold NoteStore.replaceFields.
  now destruct (Note.id n =? id).
Qed.

Lemma remove_sorted id notes :
  StronglySorted startsNoLater notes ->
  StronglySorted startsNoLater (NoteStore.remove id notes).
Proof.
  unfold NoteStore.remove.
  induction 1 as [|n notes Hs IH Hn]; simpl; [constructor|].
  destruct (negb (Note.id n =? id)); [|exact IH].
  constructor; [exact IH|].
  rewrite Forall_forall in *. intros m Hm.
  apply filter_In in Hm as [Hm _]. now apply Hn.
Qed.

Lemma timesValid_remove id notes :
  timesValid notes -> timesValid (NoteStore.remove id notes).
Proof.
  unfold timesValid, NoteStore.remove. rewrite !Forall_forall.
  intros H n Hn. apply filter_In in Hn as [Hn _]. now apply H.
Qed.

(** The store invariant: operations at times of day keep the collection at
    times of day and sorted by start time. *)
Lemma runOps_sorted ops : forall notes,
  timedOps ops -> timesValid notes -> StronglySorted startsNoLater notes ->
  timesValid (runOps localeCompare ops notes) /\
  StronglySorted startsNoLater (runOps localeCompare ops notes).
Proof.
  unfold runOps.
  induction ops as [|op ops IH]; intros notes Hops Hv Hs; [now split|].
  inversion Hops as [|? ? Hop Hrest]; subst. cbn [fold_left].
  apply IH; [exact Hrest|..];
    destruct op as [now s e t|id s e t|id|]; cbn [applyOp].
  - unfold NoteStore.add.
    apply sort_Forall with (P := validStart). now apply timesValid_add.
  - unfold NoteStore.update.
    apply sort_Forall with (P := validStart). now apply timesValid_replace.
  - now apply timesValid_remove.
  - constructor.
  - apply sortNotes_sorted. now apply timesValid_add.
  - apply sortNotes_sorted. now apply timesValid_replace.
  - now apply remove_sorted.
  - constructor.
Qed.

End StoreFacts.

(* ================================================================== *)
(** * The form controller *)
(* ================================================================== *)

Lemma truthy_iff (s : string) : JS.truthy s = true <-> s <> "".
Proof. destruct s; simpl; split; congruence. Qed.

Lemma handleSubmit_accepted localeCompare now st :
  State.startTime st <> "" -> State.endTime st <> "" ->
  JS.trim (State.text st) <> "" ->
  String.ltb (State.startTime st) (State.endTime st) = true ->
  handleSubmit localeCompare now st =
  setNotes
    match State.editingNoteId st with
    | Some id =>
        NoteStore.update localeCompare id (State.startTime st)
          (State.endTime st) (State.text st)
    | None =>
        NoteStore.add localeCompare now (State.startTime st)
          (State.endTime st) (State.text st)
    end :: resetForm.
Proof.
  intros Hs He Ht Hlt. unfold handleSubmit, JS.ge.
  apply truthy_iff in Hs, He, Ht. rewrite Hs, He, Ht, Hlt. simpl.
  now destruct (State.editingNoteId st).
Qed.

Lemma handleSubmit_missing localeCompare now st :
  State.startTime st = "" \/ State.endTime st = "" \/
  JS.trim (State.text st) = "" ->
  handleSubmit localeCompare now st = [alert MissingField].
Proof.
  intros H. unfold handleSubmit.
  destruct H as [H|[H|H]]; rewrite H; simpl; rewrite ?orb_true_r; reflexivity.
Qed.

Lemma handleSubmit_range localeCompare now st :
  State.startTime st <> "" -> State.endTime st <> "" ->
  JS.trim (State.text st) <> "" ->
  String.ltb (State.startTime st) (State.endTime st) = false ->
  handleSubmit localeCompare now st = [alert InvalidRange].
Proof.
  intros Hs He Ht Hlt. unfold handleSubmit, JS.ge.
  apply truthy_iff in Hs, He, Ht. now rewrite Hs, He, Ht, Hlt.
Qed.

(** C1, as amended.  A submit changes the notes only if the start time and
    the end time are not empty, the trimmed text is not empty and the start
    time is below the end time in string order.  When one of these fails,
    the one effect is an alert, [MissingField] for an empty field and
    [InvalidRange] for a start time not below the end time, and the notes,
    the draft fields and [editingNoteId] stay as they were.  When they all
    hold, no alert is shown, the draft is emptied, [editingNoteId] is reset
    and the notes are replaced by a newly built array: outside an edit the
    sorted previous notes and the new note, one note more, so the notes
    change; in an edit the sorted previous notes with the fields of the
    matching ones replaced, which can be the notes as they were. *)
Theorem submit_changes_notes_only_if_valid
    (localeCompare : string -> string -> Z) (now : Z) (st : State) :
  let startTime := State.startTime st in
  let endTime := State.endTime st in
  let text := State.text st in
  let effects := handleSubmit localeCompare now st in
  let st' := run effects st in
  let valid :=
    startTime <> "" /\ endTime <> "" /\ JS.trim text <> "" /\
    String.ltb startTime endTime = true in
  (State.notes st' <> State.notes st -> valid) /\
  (callsSetNotes effects = true <-> valid) /\
  (~ valid -> st' = st) /\
  (startTime = "" \/ endTime = "" \/ JS.trim text = "" ->
   effects = [alert MissingField]) /\
  (startTime <> "" -> endTime <> "" -> JS.trim text <> "" ->
   JS.ge startTime endTime = true -> effects = [alert InvalidRange]) /\
  (valid ->
   alerts effects = [] /\
   State.startTime st' = "" /\ State.endTime st' = "" /\
   State.text st' = "" /\ State.editingNoteId st' = None /\
   match State.editingNoteId st with
   | None =>
       State.notes st'
       = JS.sort (NoteStore.byStartTime localeCompare)
           (State.notes st ++ [Note.make now startTime endTime text]) /\
       Permutation (State.notes st')
         (Note.make now startTime endTime text :: State.notes st) /\
       State.notes st' <> State.notes st
   | Some id =>
       State.notes st'
       = JS.sort (NoteStore.byStartTime localeCompare)
           (map (fun note =>
                   if Note.id note =? id
                   then Note.make (Note.id note) startTime endTime text
                   else note) (State.notes st)) /\
       Permutation (State.notes st')
         (map (fun note =>
                 if Note.id note =? id
                 then Note.make (Note.id note) startTime endTime text
                 else note) (State.notes st))
   end).
Proof.
  cbv zeta.
  assert (Hcases :
    (State.startTime st = "" \/ State.endTime st = "" \/
     JS.trim (State.text st) = "") \/
    (State.startTime st <> "" /\ State.endTime st <> "" /\
     JS.trim (State.text st) <> "")).
  { destruct (State.startTime st); [now left; left|].
    destruct (State.endTime st); [now left; right; left|].
    destruct (JS.trim (State.text st)); [now left; right; right|].
    right. repeat split; discriminate. }
  assert (Hrejected :
    ~ (State.startTime st <> "" /\ State.endTime st <> "" /\
       JS.trim (State.text st) <> "" /\
       String.ltb (State.startTime st) (State.endTime st) = true) ->
    handleSubmit localeCompare now st = [alert MissingField] \/
    handleSubmit localeCompare now st = [alert InvalidRange]).
  { intros Hinvalid.
    destruct Hcases as [Hm|(Hs & He & Ht)];
      [left; now apply handleSubmit_missing|].
    destruct (String.ltb (State.startTime st) (State.endTime st)) eqn:Hlt.
    - exfalso. apply Hinvalid. now repeat split.
    - right. now apply handleSubmit_range. }
  assert (Hdecide :
    (State.startTime st <> "" /\ State.endTime st <> "" /\
     JS.trim (State.text st) <> "" /\
     String.ltb (State.startTime st) (State.endTime st) = true) \/
    ~ (State.startTime st <> "" /\ State.endTime st <> "" /\
       JS.trim (State.text st) <> "" /\
       String.ltb (State.startTime st) (State.endTime st) = true)).
  { destruct Hcases as [Hm|(Hs & He & Ht)]; [right; tauto|].
    destruct (String.ltb (State.startTime st) (State.endTime st));
      [left; now repeat split|right].
    intros (_ & _ & _ & H). discriminate H. }
  split; [|split; [split|split; [|split; [|split]]]].
  - intros Hchanged. destruct Hdecide as [Hvalid|Hinvalid]; [exact Hvalid|].
    exfalso. apply Hchanged.
    destruct (Hrejected Hinvalid) as [H|H]; now rewrite H.
  - intros Hcall. destruct Hdecide as [Hvalid|Hinvalid]; [exact Hvalid|].
    destruct (Hrejected Hinvalid) as [H|H]; rewrite H in Hcall;
      discriminate Hcall.
  - intros (Hs & He & Ht & Hlt).
    now rewrite (handleSubmit_accepted _ _ _ Hs He Ht Hlt).
  - intros Hinvalid.
    destruct (Hrejected Hinvalid) as [H|H]; now rewrite H.
  - apply handleSubmit_missing.
  - intros Hs He Ht Hge. apply handleSubmit_range; trivial.
    unfold JS.ge in Hge. now apply negb_true_iff.
  - intros (Hs & He & Ht & Hlt).
    rewrite (handleSubmit_accepted _ _ _ Hs He Ht Hlt).
    do 5 (split; [reflexivity|]).
    destruct (State.editingNoteId st) as [id|]; cbn.
    + split; [reflexivity|]. apply update_perm.
    + pose proof (add_perm localeCompare now (State.startTime st)
                    (State.endTime st) (State.text st) (State.notes st))
        as Hperm.
      split; [reflexivity|]. split; [exact Hperm|].
      intros Hsame. apply Permutation_length in Hperm.
      unfold NoteStore.add in *. rewrite Hsame in Hperm.
      cbn [List.length] in Hperm. lia.
Qed.

(** C1, the claim as stated fails: the form holds a valid draft, the submit
    is accepted, and the notes are what they were.  Here the note was put
    into the form with the edit button and submitted as it stood. *)
Lemma valid_submit_keeps_notes :
  let coffee := Note.make 1 "08:00" "08:30" "coffee" in
  let lunch := Note.make 2 "12:00" "13:00" "lunch" in
  let listed := State.make [coffee; lunch] "" "" "" None in
  let st := run (handleEdit coffee) listed in
  let st' := run (handleSubmit codeUnitCollation 0 st) st in
  (State.startTime st <> "" /\ State.endTime st <> "" /\
   JS.trim (State.text st) <> "" /\
   String.ltb (State.startTime st) (State.endTime st) = true) /\
  alerts (handleSubmit codeUnitCollation 0 st) = [] /\
  State.notes st' = State.notes st.
Proof.
  cbv zeta. repeat split; try reflexivity; discriminate.
Qed.

(** C2. With a collation that orders times of day as their code units do, a
    collection of notes that start at times of day and a start time that is
    a time of day: the collection after an add, and after an update, is
    non-decreasing by start time in string order, and the notes that start
    at the same time keep the order they had in the array that was sorted
    (the previous notes followed by the new one; the previous notes with
    the fields replaced). *)
Theorem sorted_after_add_and_update (localeCompare : string -> string -> Z)
    (prevNotes : list Note) (now id : Z) (startTime endTime text : string) :
  collatesTimes localeCompare ->
  timesValid prevNotes ->
  isTime startTime = true ->
  let newNote := Note.make now startTime endTime text in
  let added := NoteStore.add localeCompare now startTime endTime text prevNotes in
  let replaced :=
    map (NoteStore.replaceFields id startTime endTime text) prevNotes in
  let updated :=
    NoteStore.update localeCompare id startTime endTime text prevNotes in
  StronglySorted startsNoLater added /\
  (forall t, startingAt t added = startingAt t (prevNotes ++ [newNote])) /\
  StronglySorted startsNoLater updated /\
  (forall t, startingAt t updated = startingAt t replaced).
Proof.
  intros Hc Hprev Hstart. cbv zeta.
  pose proof (timesValid_add now startTime endTime text prevNotes Hprev Hstart)
    as Hadd.
  pose proof (timesValid_replace id startTime endTime text prevNotes Hprev Hstart)
    as Hrep.
  unfold NoteStore.add, NoteStore.update.
  repeat split.
  - now apply sortNotes_sorted.
  - intros t. now apply sortNotes_stable.
  - now apply sortNotes_sorted.
  - intros t. now apply sortNotes_stable.
Qed.

(** C3. A submit of a valid draft (start and end time not empty, start below
    end, text not empty once trimmed) outside an edit makes the collection
    one note longer: the new collection holds the previous notes and one
    more, whose id is the clock value and whose start time, end time and
    text are the draft's, the text as entered. *)
Theorem add_grows_by_one (localeCompare : string -> string -> Z)
    (now : Z) (st : State) :
  State.editingNoteId st = None ->
  State.startTime st <> "" -> State.endTime st <> "" ->
  JS.trim (State.text st) <> "" ->
  String.ltb (State.startTime st) (State.endTime st) = true ->
  let newNote :=
    Note.make now (State.startTime st) (State.endTime st) (State.text st) in
  let notes' := State.notes (run (handleSubmit localeCompare now st) st) in
  List.length notes' = S (List.length (State.notes st)) /\
  Permutation notes' (newNote :: State.notes st).
Proof.
  intros Hedit Hs He Ht Hlt. cbv zeta.
  rewrite (handleSubmit_accepted _ _ _ Hs He Ht Hlt), Hedit. cbn.
  pose proof (add_perm localeCompare now (State.startTime st)
                (State.endTime st) (State.text st) (State.notes st)) as Hperm.
  split; [|exact Hperm].
  now rewrite (Permutation_length Hperm).
Qed.

(** C5, as amended.  From a store whose notes have distinct ids (the empty
    store of the first render is one), after any sequence of add, update,
    remove and clear operations in which every add reads a clock value that
    is not the id of a note of the collection it extends, no two notes of
    the collection share an id. *)
Theorem ids_unique_with_fresh_clock (localeCompare : string -> string -> Z)
    (initial : list Note) (ops : list Op) :
  NoDup (ids initial) ->
  freshAdds localeCompare initial ops = true ->
  NoDup (ids (runOps localeCompare ops initial)).
Proof.
  unfold runOps. revert initial.
  induction ops as [|op ops IH]; intros notes Hdistinct Hfresh;
    [exact Hdistinct|].
  cbn [freshAdds] in Hfresh. apply andb_true_iff in Hfresh as [Hop Hrest].
  cbn [fold_left]. apply IH; [|exact Hrest].
  apply applyOp_NoDup; [exact Hdistinct|].
  destruct op; trivial. now apply negb_true_iff.
Qed.

(** C6, as amended.  An update replaces start time, end time and text of
    the notes whose id matches, keeps their id and leaves every other note
    as it was, the collection being sorted again; when no note has the id,
    a collection that is sorted by start time stays as it is, and nothing
    tells the caller: the submit shows no alert and resets the draft and
    [editingNoteId] as after any accepted submit. *)
Theorem update_replaces_matching (localeCompare : string -> string -> Z)
    (id : Z) (startTime endTime text : string) (prevNotes : list Note) :
  collatesTimes localeCompare ->
  let updated :=
    NoteStore.update localeCompare id startTime endTime text prevNotes in
  Permutation updated
    (map (NoteStore.replaceFields id startTime endTime text) prevNotes) /\
  (forall note, In note prevNotes -> Note.id note = id ->
     In (Note.make id startTime endTime text) updated) /\
  (forall note, In note prevNotes -> Note.id note <> id -> In note updated) /\
  (forall note, In note updated ->
     note = Note.make id startTime endTime text /\ hasId id prevNotes = true
     \/ Note.id note <> id /\ In note prevNotes) /\
  Permutation (ids updated) (ids prevNotes) /\
  (hasId id prevNotes = false -> timesValid prevNotes ->
   StronglySorted startsNoLater prevNotes -> updated = prevNotes) /\
  (forall now st,
     State.notes st = prevNotes -> State.editingNoteId st = Some id ->
     State.startTime st = startTime -> State.endTime st = endTime ->
     State.text st = text ->
     startTime <> "" -> endTime <> "" -> JS.trim text <> "" ->
     String.ltb startTime endTime = true ->
     alerts (handleSubmit localeCompare now st) = [] /\
     run (handleSubmit localeCompare now st) st =
     State.make updated "" "" "" None).
Proof.
  intros Hc. cbv zeta.
  pose proof (update_perm localeCompare id startTime endTime text prevNotes)
    as Hperm.
  split; [exact Hperm|].
  split.
  { intros note Hin Hid.
    apply (Permutation_in _ (Permutation_sym Hperm)).
    apply in_map_iff. exists note. split; [|exact Hin].
    unfold NoteStore.replaceFields.
    now rewrite (proj2 (Z.eqb_eq _ _) Hid), Hid. }
  split.
  { intros note Hin Hid.
    apply (Permutation_in _ (Permutation_sym Hperm)).
    apply in_map_iff. exists note. split; [|exact Hin].
    unfold NoteStore.replaceFields.
    now rewrite (proj2 (Z.eqb_neq _ _) Hid). }
  split.
  { intros note Hin.
    apply (Permutation_in _ Hperm) in Hin.
    apply in_map_iff in Hin as (old & Hold & Hin).
    unfold NoteStore.replaceFields in Hold.
    destruct (Note.id old =? id) eqn:Hid.
    - left. apply Z.eqb_eq in Hid. rewrite Hid in Hold. split; [easy|].
      unfold hasId. apply existsb_exists. exists old.
      split; [exact Hin|now apply Z.eqb_eq].
    - right. subst old. split; [now apply Z.eqb_neq|exact Hin]. }
  split.
  { rewrite <- (map_replaceFields_ids id startTime endTime text prevNotes).
    now apply Permutation_map. }
  split.
  { intros Habsent Hvalid Hsorted.
    unfold NoteStore.update.
    rewrite (map_replaceFields_absent _ _ _ _ _ Habsent).
    now apply sortNotes_sorted_id. }
  intros now st Hnotes Hedit Hs He Ht Hs' He' Ht' Hlt. subst.
  rewrite (handleSubmit_accepted _ _ _ Hs' He' Ht' Hlt), Hedit.
  split; reflexivity.
Qed.

(** C7. After a delete no note of the collection has the id, and a delete
    of an id that no note has leaves the collection as it is; so a second
    delete of the same id changes nothing. *)
Theorem delete_removes_id (id : Z) (st : State) :
  let notes' := State.notes (run (handleDelete id) st) in
  notes' = NoteStore.remove id (State.notes st) /\
  (forall note, In note notes' -> Note.id note <> id) /\
  hasId id notes' = false /\
  (hasId id (State.notes st) = false -> notes' = State.notes st) /\
  NoteStore.remove id notes' = notes'.
Proof.
  cbn.
  split; [reflexivity|].
  split.
  { unfold NoteStore.remove. intros note Hin.
    apply filter_In in Hin as [_ Hne].
    now apply negb_true_iff, Z.eqb_neq in Hne. }
  split; [apply hasId_remove|].
  split; [apply remove_absent|].
  apply remove_absent, hasId_remove.
Qed.

(** C9. A delete leaves the draft (start time, end time, text) and
    [editingNoteId] as they were; when the note being edited is deleted,
    [editingNoteId] still holds its id although no note of the collection
    has that id any more. *)
Theorem delete_keeps_draft (id : Z) (st : State) :
  let st' := run (handleDelete id) st in
  State.startTime st' = State.startTime st /\
  State.endTime st' = State.endTime st /\
  State.text st' = State.text st /\
  State.editingNoteId st' = State.editingNoteId st /\
  (State.editingNoteId st = Some id ->
   State.editingNoteId st' = Some id /\ hasId id (State.notes st') = false).
Proof.
  cbn. repeat split; trivial. apply hasId_remove.
Qed.

(* ================================================================== *)
(** * Persistence *)
(* ================================================================== *)

(** C8. With a conforming serializer, and a write that the storage takes,
    [load()] right after [save(notes)] gives the very array [notes]: the
    same notes in the same order, hence the same set of (id, start time,
    end time, text) tuples. *)
Theorem load_after_save (stringify : list Note -> string)
    (parse : string -> option (list Note)) (quotaExceeded : string -> bool)
    (notes : list Note) (ls : Persistence.Storage) :
  Persistence.conforming stringify parse ->
  quotaExceeded (stringify notes) = false ->
  let loaded :=
    Persistence.load parse (Persistence.save stringify quotaExceeded notes ls) in
  loaded = notes /\ (forall note, In note loaded <-> In note notes).
Proof.
  intros [Hparse Hnonempty] Hquota. cbv zeta.
  assert (Hload :
    Persistence.load parse (Persistence.save stringify quotaExceeded notes ls)
    = notes).
  { unfold Persistence.load, Persistence.save, Persistence.saveEffect,
      Persistence.setItem, Persistence.loadEffect, Persistence.getItem.
    rewrite Hquota. cbn [fst]. rewrite String.eqb_refl.
    rewrite (proj2 (truthy_iff _) (Hnonempty notes)), Hparse.
    reflexivity. }
  rewrite Hload. split; [reflexivity|tauto].
Qed.

(** A refused write leaves the storage as it was. *)
Lemma save_refused (stringify : list Note -> string)
    (quotaExceeded : string -> bool) (notes : list Note)
    (ls : Persistence.Storage) :
  quotaExceeded (stringify notes) = true ->
  Persistence.save stringify quotaExceeded notes ls = ls.
Proof.
  intros H. unfold Persistence.save, Persistence.saveEffect, Persistence.setItem.
  now rewrite H.
Qed.

(** Nothing stored, an empty text or a text that does not parse: the notes
    stay the empty array of the first render. *)
Lemma load_nothing (parse : string -> option (list Note))
    (ls : Persistence.Storage) :
  match Persistence.getItem ls Persistence.storageKey with
  | None => True
  | Some saved => saved = "" \/ parse saved = None
  end ->
  Persistence.load parse ls = [].
Proof.
  unfold Persistence.load, Persistence.loadEffect.
  destruct (Persistence.getItem ls Persistence.storageKey) as [saved|];
    [|reflexivity].
  intros [->|H]; [reflexivity|].
  rewrite H. now destruct (JS.truthy saved).
Qed.

(** ** The JSON texts are read back *)

Lemma getChars_putChar c k :
  JSON.getChars (JSON.putChar c k) = JSON.consChar c (JSON.getChars k).
Proof.
  destruct c as [[|] [|] [|] [|] [|] [|] [|] [|]]; reflexivity.
Qed.

Lemma getChars_putChars s k :
  JSON.getChars (JSON.putChars s (String JSON.quotationMark k)) = Some (s, k).
Proof.
  induction s as [|c s IH]; [reflexivity|].
  cbn [JSON.putChars]. now rewrite getChars_putChar, IH.
Qed.

Lemma getString_putString s k :
  JSON.getString (JSON.putString s k) = Some (s, k).
Proof. apply getChars_putChars. Qed.

Lemma getDigits_uint d c k :
  isDigit c = false ->
  JSON.getDigits (NilEmpty.string_of_uint d ++ String c k)
  = (NilEmpty.string_of_uint d, String c k).
Proof.
  intros Hc. induction d; cbn [NilEmpty.string_of_uint append JSON.getDigits];
    [now rewrite Hc|..];
    rewrite IHd; reflexivity.
Qed.

Lemma getNatural_pos p c k :
  isDigit c = false ->
  JSON.getNatural (NilEmpty.string_of_uint (Pos.to_uint p) ++ String c k)
  = Some (Z.pos p, String c k).
Proof.
  intros Hc. unfold JSON.getNatural. rewrite (getDigits_uint _ _ _ Hc).
  pose proof (toString_digits (Z.pos p) ltac:(lia)) as Hd.
  pose proof (toString_nonempty (Z.pos p)) as Hne.
  assert (Hs : JS.toString (Z.pos p) = NilEmpty.string_of_uint (Pos.to_uint p)).
  { unfold JS.toString. simpl. unfold NilZero.string_of_uint.
    pose proof (Unsigned.to_uint_nonnil p).
    now destruct (Pos.to_uint p). }
  rewrite Hs in Hd, Hne.
  rewrite (digitsOf_Number _ _ Hne Hd).
  now destruct (NilEmpty.string_of_uint (Pos.to_uint p)).
Qed.

Lemma uint_first_char p :
  exists c s, NilEmpty.string_of_uint (Pos.to_uint p) = String c s
              /\ isDigit c = true.
Proof.
  pose proof (Unsigned.to_uint_nonnil p) as H.
  destruct (Pos.to_uint p); [congruence|..]; simpl; eauto.
Qed.

Lemma getNumber_putNumber n c k :
  isDigit c = false ->
  JSON.getNumber (JSON.putNumber n (String c k)) = Some (n, String c k).
Proof.
  intros Hc. unfold JSON.putNumber, JS.toString.
  destruct n as [|p|p]; [simpl; unfold JSON.getNatural; simpl; now rewrite Hc| |].
  - cbn [Z.to_int NilZero.string_of_int].
    assert (Hs : NilZero.string_of_uint (Pos.to_uint p)
                 = NilEmpty.string_of_uint (Pos.to_uint p)).
    { unfold NilZero.string_of_uint.
      pose proof (Unsigned.to_uint_nonnil p). now destruct (Pos.to_uint p). }
    rewrite Hs. pose proof (getNatural_pos p c k Hc) as Hnat.
    destruct (uint_first_char p) as (c0 & s0 & E & Hd). rewrite E in *.
    cbn [append] in *. unfold JSON.getNumber.
    destruct (Ascii.eqb_spec c0 "-") as [->|Hne]; [discriminate Hd|].
    destruct c0 as [[|] [|] [|] [|] [|] [|] [|] [|]];
      try exact Hnat; congruence.
  - cbn [Z.to_int NilZero.string_of_int append].
    assert (Hs : NilZero.string_of_uint (Pos.to_uint p)
                 = NilEmpty.string_of_uint (Pos.to_uint p)).
    { unfold NilZero.string_of_uint.
      pose proof (Unsigned.to_uint_nonnil p). now destruct (Pos.to_uint p). }
    rewrite Hs. cbn [JSON.getNumber]. now rewrite (getNatural_pos p c k Hc).
Qed.

Lemma getNote_putNote note k :
  JSON.getNote (JSON.putNote note k) = Some (note, k).
Proof.
  unfold JSON.getNote, JSON.putNote.
  change (JSON.expect (String "{" (JSON.putKey "id" ""))
            (String "{" (JSON.putKey "id" ?x))) with (Some x).
  cbn [JSON.bind]. rewrite getNumber_putNumber by reflexivity.
  cbn [JSON.bind].
  change (JSON.expect (String "," (JSON.putKey "startTime" ""))
            (String "," (JSON.putKey "startTime" ?x))) with (Some x).
  cbn [JSON.bind]. rewrite getString_putString. cbn [JSON.bind].
  change (JSON.expect (String "," (JSON.putKey "endTime" ""))
            (String "," (JSON.putKey "endTime" ?x))) with (Some x).
  cbn [JSON.bind]. rewrite getString_putString. cbn [JSON.bind].
  change (JSON.expect (String "," (JSON.putKey "text" ""))
            (String "," (JSON.putKey "text" ?x))) with (Some x).
  cbn [JSON.bind]. rewrite getString_putString. cbn [JSON.bind].
  cbn. now destruct note.
Qed.

Lemma getMoreNotes_putMoreNotes notes : forall fuel,
  (List.length notes < fuel)%nat ->
  JSON.getMoreNotes fuel (JSON.putMoreNotes notes "]") = Some notes.
Proof.
  induction notes as [|note notes IH]; intros [|fuel] Hfuel; try lia;
    [reflexivity|].
  cbn [JSON.putMoreNotes JSON.getMoreNotes].
  rewrite getNote_putNote. cbn [JSON.bind].
  rewrite IH by (simpl in Hfuel; lia). reflexivity.
Qed.

Lemma length_putChar c k :
  (String.length k < String.length (JSON.putChar c k))%nat.
Proof.
  unfold JSON.putChar.
  repeat match goal with
         | |- context [if ?b then _ else _] => destruct b
         end; simpl; lia.
Qed.

Lemma length_putChars s k :
  (String.length k <= String.length (JSON.putChars s k))%nat.
Proof.
  induction s as [|c s IH]; simpl; [lia|].
  pose proof (length_putChar c (JSON.putChars s k)). lia.
Qed.

Lemma length_putString s k :
  (String.length k < String.length (JSON.putString s k))%nat.
Proof.
  unfold JSON.putString. simpl.
  pose proof (length_putChars s (String JSON.quotationMark k)) as H.
  simpl in H. lia.
Qed.

Lemma length_append a k :
  String.length (a ++ k) = (String.length a + String.length k)%nat.
Proof. induction a as [|c a IH]; simpl; congruence. Qed.

Lemma length_putKey name k :
  (String.length k < String.length (JSON.putKey name k))%nat.
Proof.
  unfold JSON.putKey.
  pose proof (length_putString name (String ":" k)) as H.
  cbn [String.length] in H. lia.
Qed.

Lemma length_putNumber n k :
  (String.length k <= String.length (JSON.putNumber n k))%nat.
Proof. unfold JSON.putNumber. rewrite length_append. lia. Qed.

Ltac shorter_text :=
  match goal with
  | |- (_ <= String.length (String _ ?r))%nat =>
      apply Nat.le_trans with (String.length r);
      [|cbn [String.length]; apply Nat.le_succ_diag_r]
  | |- (_ <= String.length (JSON.putKey ?n ?r))%nat =>
      apply Nat.le_trans with (String.length r);
      [|apply Nat.lt_le_incl, length_putKey]
  | |- (_ <= String.length (JSON.putString ?s ?r))%nat =>
      apply Nat.le_trans with (String.length r);
      [|apply Nat.lt_le_incl, length_putString]
  | |- (_ <= String.length (JSON.putNumber ?n ?r))%nat =>
      apply Nat.le_trans with (String.length r);
      [|apply length_putNumber]
  end.

Lemma length_putNote note k :
  (String.length k < String.length (JSON.putNote note k))%nat.
Proof.
  unfold JSON.putNote. cbn [String.length]. apply Nat.lt_succ_r.
  repeat shorter_text. apply Nat.le_refl.
Qed.

Lemma length_putMoreNotes notes k :
  (List.length notes <= String.length (JSON.putMoreNotes notes k))%nat.
Proof.
  induction notes as [|note notes IH];
    cbn [JSON.putMoreNotes List.length String.length]; [lia|].
  pose proof (length_putNote note (JSON.putMoreNotes notes k)). lia.
Qed.

Lemma parse_stringify notes : JSON.parse (JSON.stringify notes) = Some notes.
Proof.
  destruct notes as [|note notes]; [reflexivity|].
  unfold JSON.stringify, JSON.parse.
  change (JSON.putNote note ?k)
    with (String "{" (JSON.putKey "id" (JSON.putNumber (Note.id note)
      (String "," (JSON.putKey "startTime" (JSON.putString (Note.startTime note)
      (String "," (JSON.putKey "endTime" (JSON.putString (Note.endTime note)
      (String "," (JSON.putKey "text" (JSON.putString (Note.text note)
      (String "}" k))))))))))))) at 1.
  cbv iota beta.
  change (String "{" (JSON.putKey "id" (JSON.putNumber (Note.id note)
      (String "," (JSON.putKey "startTime" (JSON.putString (Note.startTime note)
      (String "," (JSON.putKey "endTime" (JSON.putString (Note.endTime note)
      (String "," (JSON.putKey "text" (JSON.putString (Note.text note)
      (String "}" ?k)))))))))))))
    with (JSON.putNote note k).
  rewrite getNote_putNote. cbn [JSON.bind].
  rewrite getMoreNotes_putMoreNotes; [reflexivity|].
  cbn [String.length].
  pose proof (length_putNote note (JSON.putMoreNotes notes "]")).
  pose proof (length_putMoreNotes notes "]"). lia.
Qed.

Lemma stringify_nonempty notes : JSON.stringify notes <> "".
Proof. now destruct notes. Qed.

Lemma JSON_conforming : Persistence.conforming JSON.stringify JSON.parse.
Proof. split; [exact parse_stringify|exact stringify_nonempty]. Qed.

(* ================================================================== *)
(** * Instances and scenarios *)
(* ================================================================== *)

(** The second scenario of the specification: after "write spec" at 09:00,
    "coffee" at 08:00 is listed first; here under the collation that
    ignores case. *)
Lemma sorted_after_add_and_update_witness :
  let prev := [Note.make 1 "09:00" "10:00" "write spec"] in
  let coffee := Note.make 2 "08:00" "08:30" "coffee" in
  let added := NoteStore.add caseBlindCollation 2 "08:00" "08:30" "coffee" prev in
  let replaced := map (NoteStore.replaceFields 1 "08:00" "08:30" "coffee") prev in
  let updated :=
    NoteStore.update caseBlindCollation 1 "08:00" "08:30" "coffee" prev in
  collatesTimes caseBlindCollation /\ timesValid prev /\ isTime "08:00" = true /\
  added = [coffee; Note.make 1 "09:00" "10:00" "write spec"] /\
  StronglySorted startsNoLater added /\
  (forall t, startingAt t added = startingAt t (prev ++ [coffee])) /\
  StronglySorted startsNoLater updated /\
  (forall t, startingAt t updated = startingAt t replaced).
Proof.
  cbv zeta.
  assert (Hv : timesValid [Note.make 1 "09:00" "10:00" "write spec"])
    by (repeat constructor).
  split; [exact caseBlindCollation_collatesTimes|].
  split; [exact Hv|].
  split; [reflexivity|].
  split; [reflexivity|].
  exact (sorted_after_add_and_update caseBlindCollation
           [Note.make 1 "09:00" "10:00" "write spec"] 2 1
           "08:00" "08:30" "coffee"
           caseBlindCollation_collatesTimes Hv eq_refl).
Defined.

(** Outside the times of day a collation need not follow the code units:
    the one that ignores case lists a start "a" before a start "B", and
    "B" is below "a" in string order.  The order of the list is the order
    of the strings because the starts are times of day. *)
Example letters_collate_apart :
  NoteStore.add caseBlindCollation 2 "a" "b" "y" [Note.make 1 "B" "C" "x"]
  = [Note.make 2 "a" "b" "y"; Note.make 1 "B" "C" "x"] /\
  String.ltb "B" "a" = true.
Proof. split; reflexivity. Qed.

Lemma add_grows_by_one_witness :
  let st :=
    State.make [Note.make 1 "09:00" "10:00" "write spec"]
      "08:00" "08:30" " coffee " None in
  let notes' := State.notes (run (handleSubmit codeUnitCollation 2 st) st) in
  JS.trim (State.text st) = "coffee" /\
  List.length notes' = 2%nat /\
  Permutation notes'
    [Note.make 2 "08:00" "08:30" " coffee ";
     Note.make 1 "09:00" "10:00" "write spec"].
Proof.
  cbv zeta. split; [reflexivity|].
  apply (add_grows_by_one codeUnitCollation 2
           (State.make [Note.make 1 "09:00" "10:00" "write spec"]
              "08:00" "08:30" " coffee " None));
    solve [reflexivity | discriminate].
Defined.

Lemma duration_is_minutes_over_60_witness :
  let note := Note.make 1 "09:00" "10:30" "write spec" in
  timeToMinutes "09:00" = Some 540 /\
  timeToMinutes "10:30" = Some 630 /\
  durationHours note = Some (inject_Z (630 - 540) / inject_Z 60)%Q /\
  (Note.startTime note = "09:00" -> Note.endTime note = "10:30" ->
   exists hours, durationHours note = Some hours /\ (hours == 3 # 2)%Q).
Proof.
  exact (duration_is_minutes_over_60
           (Note.make 1 "09:00" "10:30" "write spec") eq_refl eq_refl).
Defined.

Lemma ids_unique_with_fresh_clock_witness :
  let ops :=
    [Add 1 "09:00" "10:00" "write spec"; Add 2 "08:00" "08:30" "coffee";
     Update 1 "09:30" "10:30" "write spec"; Remove 2;
     Add 2 "11:00" "12:00" "lunch"] in
  freshAdds codeUnitCollation [] ops = true /\
  NoDup (ids (runOps codeUnitCollation ops [])).
Proof.
  cbv zeta. split; [reflexivity|].
  apply ids_unique_with_fresh_clock; [constructor|reflexivity].
Defined.

(** C5, the claim as stated fails: two accepted submits that read the same
    clock value leave two notes with one id. *)
Lemma same_clock_same_id :
  let first := State.make [] "09:00" "10:00" "write spec" None in
  let st1 := run (handleSubmit codeUnitCollation 1000 first) first in
  let second := State.make (State.notes st1) "10:00" "11:00" "review" None in
  let st2 := run (handleSubmit codeUnitCollation 1000 second) second in
  State.notes st2 =
    runOps codeUnitCollation
      [Add 1000 "09:00" "10:00" "write spec"; Add 1000 "10:00" "11:00" "review"]
      [] /\
  State.notes st2 =
    [Note.make 1000 "09:00" "10:00" "write spec";
     Note.make 1000 "10:00" "11:00" "review"] /\
  ~ NoDup (ids (State.notes st2)).
Proof.
  cbv zeta. split; [reflexivity|]. split; [reflexivity|].
  intros H. inversion H as [|? ? Hin _]. apply Hin. now left.
Qed.

Lemma update_replaces_matching_witness :
  let prev :=
    [Note.make 2 "08:00" "08:30" "coffee";
     Note.make 1 "09:00" "10:00" "write spec"] in
  collatesTimes codeUnitCollation /\
  Permutation
    (NoteStore.update codeUnitCollation 2 "10:00" "10:30" "tea" prev)
    [Note.make 2 "10:00" "10:30" "tea";
     Note.make 1 "09:00" "10:00" "write spec"] /\
  NoteStore.update codeUnitCollation 3 "10:00" "10:30" "tea" prev = prev.
Proof.
  cbv zeta. split; [exact codeUnitCollation_collatesTimes|].
  split.
  - exact (proj1 (update_replaces_matching codeUnitCollation 2
                    "10:00" "10:30" "tea" _ codeUnitCollation_collatesTimes)).
  - destruct (update_replaces_matching codeUnitCollation 3
                "10:00" "10:30" "tea"
                [Note.make 2 "08:00" "08:30" "coffee";
                 Note.make 1 "09:00" "10:00" "write spec"]
                codeUnitCollation_collatesTimes)
      as (_ & _ & _ & _ & _ & Hsame & _).
    apply Hsame; [reflexivity|repeat constructor|repeat constructor].
Defined.

(** C6, the claim as stated fails: the note being edited is deleted and the
    draft is submitted; no note has the id, and the submit shows no alert
    and clears the draft, as it does after an update that found its note. *)
Lemma update_absent_not_signaled :
  let coffee := Note.make 1 "08:00" "08:30" "coffee" in
  let lunch := Note.make 2 "12:00" "13:00" "lunch" in
  let listed := State.make [coffee; lunch] "" "" "" None in
  let st := run (handleDelete 2) (run (handleEdit lunch) listed) in
  let effects := handleSubmit codeUnitCollation 0 st in
  st = State.make [coffee] "12:00" "13:00" "lunch" (Some 2) /\
  hasId 2 (State.notes st) = false /\
  alerts effects = [] /\
  run effects st = State.make [coffee] "" "" "" None.
Proof. cbv zeta. repeat split. Qed.

Lemma load_after_save_witness :
  let notes :=
    [Note.make 1700000000000 "08:00" "08:30" "coffee";
     Note.make 1700000000001 "09:00" "10:00" "write spec"] in
  let quota := fun value => (5242880 <? N.of_nat (String.length value))%N in
  let loaded :=
    Persistence.load JSON.parse
      (Persistence.save JSON.stringify quota notes Persistence.emptyStorage) in
  Persistence.conforming JSON.stringify JSON.parse /\
  loaded = notes /\ (forall note, In note loaded <-> In note notes).
Proof.
  cbv zeta. split; [exact JSON_conforming|].
  apply (load_after_save JSON.stringify JSON.parse
           (fun value => (5242880 <? N.of_nat (String.length value))%N)
           [Note.make 1700000000000 "08:00" "08:30" "coffee";
            Note.make 1700000000001 "09:00" "10:00" "write spec"]
           Persistence.emptyStorage JSON_conforming).
  reflexivity.
Defined.

Lemma timeToMinutes_minutesToTime_witness :
  0 <= 570 <= 1439 /\ minutesToTime 570 = "09:30" /\
  timeToMinutes (minutesToTime 570) = Some 570.
Proof.
  split; [lia|]. split; [reflexivity|].
  apply timeToMinutes_minutesToTime. lia.
Defined.

(** ** Scenarios of the specification *)

Example submit_reversed_range_rejected :
  let st := State.make [] "10:00" "09:00" "x" None in
  handleSubmit codeUnitCollation 0 st = [alert InvalidRange] /\
  run (handleSubmit codeUnitCollation 0 st) st = st.
Proof. split; reflexivity. Qed.

Example submit_blank_text_rejected :
  let st := State.make [] "09:00" "10:00" "   " None in
  handleSubmit codeUnitCollation 0 st = [alert MissingField].
Proof. reflexivity. Qed.

Example edit_then_cancel :
  let coffee := Note.make 1 "08:00" "08:30" "coffee" in
  let st := State.make [coffee] "" "" "" None in
  let editing := run (handleEdit coffee) st in
  editing = State.make [coffee] "08:00" "08:30" "coffee" (Some 1) /\
  run handleCancelEdit editing = st.
Proof. split; reflexivity. Qed.

Example delete_all_confirmed (st : State) :
  State.notes (run (handleDeleteAll true) st) = [] /\
  run (handleDeleteAll false) st = st.
Proof. split; reflexivity. Qed.

Example equal_starts_keep_source_order :
  NoteStore.add codeUnitCollation 3 "09:00" "09:30" "standup"
    [Note.make 1 "09:00" "10:00" "write spec";
     Note.make 2 "11:00" "12:00" "review"]
  = [Note.make 1 "09:00" "10:00" "write spec";
     Note.make 3 "09:00" "09:30" "standup";
     Note.make 2 "11:00" "12:00" "review"].
Proof. reflexivity. Qed.

Example displayed_hours :
  displayedHours (Note.make 1 "09:00" "10:30" "write spec") = Some (150 # 100) /\
  displayedHours (Note.make 2 "09:00" "09:20" "coffee") = Some (33 # 100).
Proof. split; reflexivity. Qed.

Example timeToMinutes_without_colon : timeToMinutes "0930" = None.
Proof. reflexivity. Qed.

Example stringify_example :
  JSON.stringify [Note.make 7 "09:00" "10:00" "a\b"]
  = String "[" (JSON.putNote (Note.make 7 "09:00" "10:00" "a\b") "]").
Proof. reflexivity. Qed.

(* ================================================================== *)
(** * Further properties of the time helpers *)
(* ================================================================== *)

Lemma isDigit_bounds c : isDigit c = true -> 0 <= digitValue c <= 9.
Proof.
  unfold isDigit, digitValue. intros H.
  apply andb_true_iff in H as [Hlo Hhi]. apply N.leb_le in Hlo, Hhi. lia.
Qed.

(** On times of day the order of the strings is the order of the minutes. *)
Lemma compare_times a b :
  isTime a = true -> isTime b = true ->
  String.compare a b = (spec_minutes a ?= spec_minutes b).
Proof.
  unfold isTime.
  destruct a as [|a1 [|a2 [|ac [|a3 [|a4 [|]]]]]]; try discriminate.
  destruct b as [|b1 [|b2 [|bc [|b3 [|b4 [|]]]]]]; try discriminate.
  intros Ha Hb.
  do 6 (apply andb_true_iff in Ha as [Ha ?]).
  do 6 (apply andb_true_iff in Hb as [Hb ?]).
  repeat match goal with
         | Hc : Ascii.eqb _ ":" = true |- _ => apply Ascii.eqb_eq in Hc; subst
         | Hd : isDigit _ = true |- _ => apply isDigit_bounds in Hd
         | Hlt : (_ <? _) = true |- _ => apply Z.ltb_lt in Hlt
         end.
  unfold spec_minutes, digitValue in *. cbn [String.compare].
  unfold Ascii.compare.
  change (N_of_ascii ":" ?= N_of_ascii ":")%N with Eq. cbv iota.
  symmetry.
  destruct (N.compare_spec (N_of_ascii a1) (N_of_ascii b1));
    [|apply Z.compare_lt_iff; lia|apply Z.compare_gt_iff; lia].
  destruct (N.compare_spec (N_of_ascii a2) (N_of_ascii b2));
    [|apply Z.compare_lt_iff; lia|apply Z.compare_gt_iff; lia].
  destruct (N.compare_spec (N_of_ascii a3) (N_of_ascii b3));
    [|apply Z.compare_lt_iff; lia|apply Z.compare_gt_iff; lia].
  destruct (N.compare_spec (N_of_ascii a4) (N_of_ascii b4));
    [apply Z.compare_eq_iff; lia
    |apply Z.compare_lt_iff; lia|apply Z.compare_gt_iff; lia].
Qed.

(** X1. For two times of day, the comparison of [handleSubmit] and the
    minutes of [timeToMinutes] agree: [a < b] as strings exactly when
    [a] has fewer minutes, and two times with the same minutes are the same
    string. *)
Theorem timeToMinutes_keeps_order (a b : string) :
  isTime a = true -> isTime b = true ->
  exists ma mb,
    timeToMinutes a = Some ma /\ timeToMinutes b = Some mb /\
    (String.ltb a b = true <-> ma < mb) /\
    (JS.ge a b = true <-> mb <= ma) /\
    (ma = mb -> a = b).
Proof.
  intros Ha Hb.
  exists (spec_minutes a), (spec_minutes b).
  split; [now apply timeToMinutes_isTime|].
  split; [now apply timeToMinutes_isTime|].
  pose proof (compare_times a b Ha Hb) as Hcmp.
  assert (Hsame : spec_minutes a = spec_minutes b -> a = b).
  { intros E. apply String.compare_eq_iff. rewrite Hcmp.
    now apply Z.compare_eq_iff. }
  unfold JS.ge, String.ltb. rewrite Hcmp.
  destruct (Z.compare_spec (spec_minutes a) (spec_minutes b)) as [E|L|G];
    repeat split; intros; try discriminate; try lia; try reflexivity;
    now apply Hsame.
Qed.

Lemma timeToMinutes_keeps_order_witness :
  isTime "09:59" = true /\ isTime "10:00" = true /\
  exists ma mb,
    timeToMinutes "09:59" = Some ma /\ timeToMinutes "10:00" = Some mb /\
    (String.ltb "09:59" "10:00" = true <-> ma < mb) /\
    (JS.ge "09:59" "10:00" = true <-> mb <= ma) /\
    (ma = mb -> "09:59" = "10:00").
Proof.
  split; [reflexivity|]. split; [reflexivity|].
  exact (timeToMinutes_keeps_order "09:59" "10:00" eq_refl eq_refl).
Defined.

Lemma padStart_two_digits a b :
  isDigit a = true -> isDigit b = true ->
  JS.padStart 2 "0" (JS.toString (10 * digitValue a + digitValue b))
  = String a (String b "").
Proof.
  intros Ha Hb. apply isDigit_cases in Ha, Hb. simpl in Ha, Hb.
  decompose [or] Ha; try contradiction; subst a;
    decompose [or] Hb; try contradiction; subst b; reflexivity.
Qed.

(** X2. Writing the minutes of a time of day gives the time of day back,
    and what [minutesToTime] writes for a minute of the day is a time of
    day: the two helpers are inverse bijections between the times of day
    and 0..1439. *)
Theorem minutesToTime_timeToMinutes (t : string) :
  isTime t = true ->
  exists m, timeToMinutes t = Some m /\ 0 <= m <= 1439 /\ minutesToTime m = t.
Proof.
  intros Ht. exists (spec_minutes t).
  split; [now apply timeToMinutes_isTime|].
  split; [now apply spec_minutes_range|].
  revert Ht. unfold isTime.
  destruct t as [|a [|b [|c [|d [|e [|]]]]]]; try discriminate.
  intros H. do 6 (apply andb_true_iff in H as [H ?]).
  match goal with Hc : Ascii.eqb c ":" = true |- _ =>
    apply Ascii.eqb_eq in Hc; subst c end.
  pose proof (isDigit_bounds a ltac:(assumption)) as Ba.
  pose proof (isDigit_bounds b ltac:(assumption)) as Bb.
  pose proof (isDigit_bounds d ltac:(assumption)) as Bd.
  pose proof (isDigit_bounds e ltac:(assumption)) as Be.
  repeat match goal with
         | Hlt : (_ <? _) = true |- _ => apply Z.ltb_lt in Hlt
         end.
  unfold minutesToTime, spec_minutes, JS.floor_div, JS.remainder. cbv zeta.
  set (hh := 10 * digitValue a + digitValue b) in *.
  set (mm := 10 * digitValue d + digitValue e) in *.
  replace ((hh * 60 + mm) / 60) with hh
    by (apply Z.div_unique with mm; lia).
  rewrite Z.rem_mod_nonneg by lia.
  replace ((hh * 60 + mm) mod 60) with mm
    by (apply Z.mod_unique with hh; lia).
  subst hh mm. now rewrite !padStart_two_digits by assumption.
Qed.

Lemma minutesToTime_timeToMinutes_witness :
  isTime "23:59" = true /\
  exists m, timeToMinutes "23:59" = Some m /\ 0 <= m <= 1439 /\
            minutesToTime m = "23:59".
Proof.
  split; [reflexivity|].
  exact (minutesToTime_timeToMinutes "23:59" eq_refl).
Defined.

(** X4. For the differences of two times of day, [k] from -1439 to 1439
    minutes, the number shown is a whole number [n] of hundredths with
    [|6 n - 10 k| <= 2]: it lies within 1/300 of [k / 60], never half a
    hundredth away, so the rounding of [toFixed(2)] meets no tie.  It is 0
    only for no difference, and from 1 to 1439 minutes it is between 0.02
    and 23.98: no note is shown as 0h. *)
Theorem displayed_hours_accuracy (k : Z) :
  -1439 <= k <= 1439 ->
  exists n,
    toFixed2 (inject_Z k / inject_Z 60) = n # 100 /\
    Z.abs (6 * n - 10 * k) <= 2 /\
    (k = 0 <-> n = 0) /\
    (1 <= k -> 2 <= n <= 2398).
Proof.
  intros Hday.
  unfold toFixed2, Qdiv, Qmult, Qplus, Qabs, Qfloor, Qle_bool, Qinv, inject_Z.
  cbn [Qnum Qden].
  change (Z.pos (1 * 60)) with 60.
  change (Z.pos (1 * 60 * 1)) with 60.
  change (Z.pos (1 * 60 * 1 * 2)) with 120.
  rewrite !Z.mul_1_r, Z.mul_1_l, Z.mul_0_l.
  pose proof (Z.div_mod (Z.abs k * 100 * 2 + 60) 120 ltac:(lia)) as Hdiv.
  pose proof (Z.mod_pos_bound (Z.abs k * 100 * 2 + 60) 120 ltac:(lia)) as Hmod.
  destruct (Z.leb_spec 0 k) as [Hk|Hk]; eexists; (split; [reflexivity|]); lia.
Qed.

Lemma displayed_hours_accuracy_witness :
  -1439 <= 20 <= 1439 /\
  toFixed2 (inject_Z 20 / inject_Z 60) = 33 # 100 /\
  exists n,
    toFixed2 (inject_Z 20 / inject_Z 60) = n # 100 /\
    Z.abs (6 * n - 10 * 20) <= 2 /\
    (20 = 0 <-> n = 0) /\
    (1 <= 20 -> 2 <= n <= 2398).
Proof.
  split; [lia|]. split; [reflexivity|].
  apply displayed_hours_accuracy. lia.
Defined.


(** X3. A note whose start and end are times of day and whose start is below
    its end in string order, as [handleSubmit] requires, lasts more than
    zero and less than 24 hours: the check on the strings rules out an
    empty or negative duration. *)
Theorem accepted_note_duration (note : Note) :
  isTime (Note.startTime note) = true ->
  isTime (Note.endTime note) = true ->
  String.ltb (Note.startTime note) (Note.endTime note) = true ->
  exists hours,
    durationHours note = Some hours /\ (0 < hours)%Q /\ (hours < 24)%Q.
Proof.
  intros Hs He Hlt.
  pose proof (compare_times _ _ Hs He) as Hcmp.
  unfold String.ltb in Hlt.
  destruct (String.compare (Note.startTime note) (Note.endTime note));
    try discriminate Hlt.
  symmetry in Hcmp. apply -> Z.compare_lt_iff in Hcmp.
  pose proof (spec_minutes_range _ Hs) as Rs.
  pose proof (spec_minutes_range _ He) as Re.
  unfold durationHours.
  rewrite (timeToMinutes_isTime _ Hs), (timeToMinutes_isTime _ He).
  eexists. split; [reflexivity|].
  split; unfold Qlt, Qdiv, Qmult, Qinv, inject_Z; cbn [Qnum Qden]; lia.
Qed.

Lemma accepted_note_duration_witness :
  let note := Note.make 1 "09:00" "09:01" "call" in
  String.ltb "09:00" "09:01" = true /\
  exists hours,
    durationHours note = Some hours /\ (0 < hours)%Q /\ (hours < 24)%Q.
Proof.
  cbv zeta. split; [reflexivity|].
  exact (accepted_note_duration (Note.make 1 "09:00" "09:01" "call")
           eq_refl eq_refl eq_refl).
Defined.

(* ================================================================== *)
(** * Further properties of the form and the list *)
(* ================================================================== *)

Lemma handleSubmit_cases localeCompare now st :
  handleSubmit localeCompare now st = [alert MissingField] \/
  handleSubmit localeCompare now st = [alert InvalidRange] \/
  passesValidation
    (Note.make now (State.startTime st) (State.endTime st) (State.text st))
  = true /\
  handleSubmit localeCompare now st =
  setNotes
    match State.editingNoteId st with
    | Some id =>
        NoteStore.update localeCompare id (State.startTime st)
          (State.endTime st) (State.text st)
    | None =>
        NoteStore.add localeCompare now (State.startTime st)
          (State.endTime st) (State.text st)
    end :: resetForm.
Proof.
  unfold passesValidation. cbn [Note.startTime Note.endTime Note.text].
  destruct (JS.truthy (State.startTime st)) eqn:Hs;
    [|left; apply handleSubmit_missing; left; now destruct (State.startTime st)].
  destruct (JS.truthy (State.endTime st)) eqn:He;
    [|left; apply handleSubmit_missing; right; left;
      now destruct (State.endTime st)].
  destruct (JS.truthy (JS.trim (State.text st))) eqn:Ht;
    [|left; apply handleSubmit_missing; right; right;
      now destruct (JS.trim (State.text st))].
  apply truthy_iff in Hs, He, Ht.
  destruct (String.ltb (State.startTime st) (State.endTime st)) eqn:Hlt.
  - right. right. split; [reflexivity|]. now apply handleSubmit_accepted.
  - right. left. now apply handleSubmit_range.
Qed.

(** X5. After a submit that was accepted, the draft is empty and no note is
    being edited, so a second submit without new input is refused with the
    missing-field alert and changes nothing: one filled form stores one
    note. *)
Theorem second_submit_refused (localeCompare : string -> string -> Z)
    (now now' : Z) (st : State) :
  callsSetNotes (handleSubmit localeCompare now st) = true ->
  let st' := run (handleSubmit localeCompare now st) st in
  State.startTime st' = "" /\ State.endTime st' = "" /\ State.text st' = "" /\
  State.editingNoteId st' = None /\
  handleSubmit localeCompare now' st' = [alert MissingField] /\
  run (handleSubmit localeCompare now' st') st' = st'.
Proof.
  intros Hcall. cbv zeta.
  destruct (handleSubmit_cases localeCompare now st) as [H|[H|[_ H]]];
    rewrite H in Hcall |- *; try discriminate Hcall.
  cbn. repeat split; reflexivity.
Qed.

Lemma second_submit_refused_witness :
  let st := State.make [] "09:00" "10:00" "write spec" None in
  let st' := run (handleSubmit codeUnitCollation 1000 st) st in
  State.notes st' = [Note.make 1000 "09:00" "10:00" "write spec"] /\
  State.startTime st' = "" /\ State.endTime st' = "" /\ State.text st' = "" /\
  State.editingNoteId st' = None /\
  handleSubmit codeUnitCollation 1000 st' = [alert MissingField] /\
  run (handleSubmit codeUnitCollation 1000 st') st' = st'.
Proof.
  cbv zeta. split; [reflexivity|].
  exact (second_submit_refused codeUnitCollation 1000 1000
           (State.make [] "09:00" "10:00" "write spec" None) eq_refl).
Defined.

Lemma same_id_same_note (notes : list Note) (a b : Note) :
  NoDup (ids notes) -> In a notes -> In b notes ->
  Note.id a = Note.id b -> a = b.
Proof.
  unfold ids. induction notes as [|n notes IH]; intros Hnd Ha Hb Hid;
    [contradiction|].
  cbn [map] in Hnd. inversion Hnd as [|? ? Hnotin Hnd']; subst.
  destruct Ha as [->|Ha], Hb as [->|Hb]; trivial.
  - exfalso. apply Hnotin. rewrite Hid. now apply in_map.
  - exfalso. apply Hnotin. rewrite <- Hid. now apply in_map.
  - now apply IH.
Qed.

(** X6. Clicking edit on a listed note and submitting the form as it was
    filled leaves the list exactly as it was, shows no alert and empties the
    draft; this holds for a list that is sorted, at times of day and with
    distinct ids, and a note that passes the validation. *)
Theorem edit_then_submit_unchanged (localeCompare : string -> string -> Z)
    (now : Z) (st : State) (index : nat) (note : Note) :
  collatesTimes localeCompare ->
  timesValid (State.notes st) ->
  StronglySorted startsNoLater (State.notes st) ->
  NoDup (ids (State.notes st)) ->
  nth_error (State.notes st) index = Some note ->
  passesValidation note = true ->
  let editing := dispatch localeCompare st (ClickEdit index) in
  let submitted := dispatch localeCompare editing (Submit now) in
  State.editingNoteId editing = Some (Note.id note) /\
  alerts (handle localeCompare editing (Submit now)) = [] /\
  submitted = State.make (State.notes st) "" "" "" None.
Proof.
  intros Hc Hv Hs Hnd Hnth Hok. cbv zeta.
  assert (Hedit :
    dispatch localeCompare st (ClickEdit index)
    = State.make (State.notes st) (Note.startTime note) (Note.endTime note)
        (Note.text note) (Some (Note.id note))).
  { unfold dispatch. cbn [handle]. now rewrite Hnth. }
  rewrite Hedit. split; [reflexivity|].
  unfold passesValidation in Hok.
  do 3 (apply andb_true_iff in Hok as [Hok ?]).
  unfold dispatch. cbn [handle].
  rewrite handleSubmit_accepted;
    cbn [State.notes State.startTime State.endTime State.text
           State.editingNoteId];
    try (now apply truthy_iff); try assumption.
  split; [reflexivity|].
  cbn [run fold_left applyEffect resetForm State.notes State.startTime
         State.endTime State.text State.editingNoteId].
  f_equal. unfold NoteStore.update.
  assert (Hmap :
    map (NoteStore.replaceFields (Note.id note) (Note.startTime note)
           (Note.endTime note) (Note.text note)) (State.notes st)
    = State.notes st).
  { rewrite <- (map_id (State.notes st)) at 2.
    apply map_ext_in. intros n Hn. unfold NoteStore.replaceFields.
    destruct (Z.eqb_spec (Note.id n) (Note.id note)) as [E|_]; [|reflexivity].
    apply nth_error_In in Hnth.
    rewrite (same_id_same_note _ _ _ Hnd Hn Hnth E). now destruct note. }
  rewrite Hmap. now apply sortNotes_sorted_id.
Qed.

Lemma edit_then_submit_unchanged_witness :
  let coffee := Note.make 1 "08:00" "08:30" "coffee" in
  let spec := Note.make 2 "09:00" "10:00" "write spec" in
  let st := State.make [coffee; spec] "07:00" "" "tea" None in
  let editing := dispatch caseBlindCollation st (ClickEdit 1) in
  let submitted := dispatch caseBlindCollation editing (Submit 3) in
  collatesTimes caseBlindCollation /\
  State.editingNoteId editing = Some 2 /\
  alerts (handle caseBlindCollation editing (Submit 3)) = [] /\
  submitted = State.make [coffee; spec] "" "" "" None.
Proof.
  cbv zeta. split; [exact caseBlindCollation_collatesTimes|].
  apply (edit_then_submit_unchanged caseBlindCollation 3
           (State.make [Note.make 1 "08:00" "08:30" "coffee";
                        Note.make 2 "09:00" "10:00" "write spec"]
              "07:00" "" "tea" None)
           1 (Note.make 2 "09:00" "10:00" "write spec")
           caseBlindCollation_collatesTimes);
    try reflexivity; repeat constructor; simpl; intuition discriminate.
Defined.

Section ControlFacts.

Variable localeCompare : string -> string -> Z.

Lemma run_accepted updater st :
  run (setNotes updater :: resetForm) st
  = State.make (updater (State.notes st)) "" "" "" None.
Proof. reflexivity. Qed.

(** A property of notes that the draft would have, were it accepted, is
    kept for all listed notes by every event. *)
Lemma dispatch_Forall (P : Note -> Prop) st ev :
  Forall P (State.notes st) ->
  (forall id,
     passesValidation
       (Note.make id (State.startTime st) (State.endTime st) (State.text st))
     = true ->
     P (Note.make id (State.startTime st) (State.endTime st) (State.text st))) ->
  Forall P (State.notes (dispatch localeCompare st ev)).
Proof.
  intros Hall Hdraft. unfold dispatch.
  destruct ev as [v|v|v|now| |confirmed|index|index]; cbn [handle];
    try exact Hall.
  - destruct (handleSubmit_cases localeCompare now st) as [H|[H|[Hok H]]];
      rewrite H; try exact Hall.
    rewrite run_accepted. cbn [State.notes].
    destruct (State.editingNoteId st) as [id|].
    + eapply Permutation_Forall;
        [apply Permutation_sym, update_perm|].
      apply Forall_map. eapply Forall_impl; [|exact Hall].
      intros n Hn. unfold NoteStore.replaceFields.
      destruct (Note.id n =? id); [|exact Hn].
      apply Hdraft. exact Hok.
    + eapply Permutation_Forall;
        [apply Permutation_sym, add_perm|].
      constructor; [now apply Hdraft|exact Hall].
  - now destruct (State.editingNoteId st).
  - destruct (State.notes st) as [|n ns] eqn:E.
    + cbn. rewrite E. constructor.
    + destruct confirmed; cbn; [constructor|rewrite E; exact Hall].
  - now destruct (nth_error (State.notes st) index).
  - destruct (nth_error (State.notes st) index); [|exact Hall].
    cbn. unfold NoteStore.remove. rewrite Forall_forall in *.
    intros n Hn. apply filter_In in Hn as [Hn _]. now apply Hall.
Qed.

End ControlFacts.

(** X7. Whatever the user does, every listed note keeps passing the
    validation of [handleSubmit]: start and end are not empty, the start is
    below the end in string order and the text is not blank. *)
Theorem listed_notes_pass_validation (localeCompare : string -> string -> Z)
    (events : list Event) (st : State) :
  Forall (fun note => passesValidation note = true) (State.notes st) ->
  Forall (fun note => passesValidation note = true)
    (State.notes (runEvents localeCompare events st)).
Proof.
  unfold runEvents. revert st.
  induction events as [|ev events IH]; intros st Hall; [exact Hall|].
  cbn [fold_left]. apply IH.
  apply dispatch_Forall; [exact Hall|].
  intros id Hok. unfold passesValidation in *. exact Hok.
Qed.

Lemma listed_notes_pass_validation_witness :
  let events :=
    [ChangeStartTime "10:00"; ChangeEndTime "09:00"; ChangeText "x"; Submit 1;
     ChangeEndTime "11:00"; Submit 2; ClickEdit 0; ChangeText "  "; Submit 3;
     ChangeText "y"; Submit 4] in
  State.notes (runEvents codeUnitCollation events initialState)
  = [Note.make 2 "10:00" "11:00" "y"] /\
  Forall (fun note => passesValidation note = true)
    (State.notes (runEvents codeUnitCollation events initialState)).
Proof.
  cbv zeta. split; [reflexivity|].
  apply listed_notes_pass_validation. constructor.
Defined.

Lemma emptyOrTime_nonempty s :
  emptyOrTime s = true -> JS.truthy s = true -> isTime s = true.
Proof. now destruct s. Qed.

Lemma dispatch_timedAndSorted localeCompare st ev :
  collatesTimes localeCompare ->
  match ev with
  | ChangeStartTime value | ChangeEndTime value => emptyOrTime value = true
  | _ => True
  end ->
  timedAndSorted st -> timedAndSorted (dispatch localeCompare st ev).
Proof.
  intros Hc Hev (Htimes & Hsorted & Hstart & Hend).
  assert (Hvalid : timesValid (State.notes st)).
  { eapply Forall_impl; [|exact Htimes]. now intros n [H _]. }
  split.
  { apply dispatch_Forall; [exact Htimes|].
    intros id Hok. unfold passesValidation in Hok.
    cbn [Note.startTime Note.endTime Note.text] in *.
    do 3 (apply andb_true_iff in Hok as [Hok ?]).
    split; now apply emptyOrTime_nonempty. }
  unfold dispatch.
  destruct ev as [v|v|v|now| |confirmed|index|index]; cbn [handle].
  - now repeat split.
  - now repeat split.
  - now repeat split.
  - destruct (handleSubmit_cases localeCompare now st) as [H|[H|[Hok H]]];
      rewrite H; [now repeat split..|].
    rewrite run_accepted.
    cbn [State.notes State.startTime State.endTime].
    split; [|now split].
    unfold passesValidation in Hok.
    cbn [Note.startTime Note.endTime Note.text] in Hok.
    do 3 (apply andb_true_iff in Hok as [Hok ?]).
    assert (Htime : isTime (State.startTime st) = true)
      by now apply emptyOrTime_nonempty.
    destruct (State.editingNoteId st) as [id|].
    + unfold NoteStore.update. apply sortNotes_sorted; [exact Hc|].
      now apply timesValid_replace.
    + unfold NoteStore.add. apply sortNotes_sorted; [exact Hc|].
      now apply timesValid_add.
  - destruct (State.editingNoteId st); now repeat split.
  - destruct (State.notes st) as [|n ns] eqn:E.
    + cbn. rewrite E. now repeat split.
    + destruct confirmed; cbn; [|rewrite E]; repeat split; trivial.
      constructor.
  - destruct (nth_error (State.notes st) index) as [note|] eqn:E;
      [|now repeat split].
    cbn. split; [exact Hsorted|].
    apply nth_error_In in E. rewrite Forall_forall in Htimes.
    destruct (Htimes _ E) as [Hs He].
    split; [now destruct (Note.startTime note)|now destruct (Note.endTime note)].
  - destruct (nth_error (State.notes st) index); [|now repeat split].
    cbn. split; [now apply remove_sorted|now split].
Qed.

(** X8. With time inputs that hold the empty string or a time of day, the
    list stays sorted by start time whatever the user does (deleting
    included, which does not sort), and every listed note starts and ends
    at a time of day. *)
Theorem list_stays_sorted (localeCompare : string -> string -> Z)
    (events : list Event) (st : State) :
  collatesTimes localeCompare ->
  timeInputs events ->
  timedAndSorted st ->
  timedAndSorted (runEvents localeCompare events st).
Proof.
  intros Hc. unfold runEvents. revert st.
  induction events as [|ev events IH]; intros st Hev Hst; [exact Hst|].
  inversion Hev as [|? ? Hfirst Hrest]; subst.
  cbn [fold_left]. apply IH; [exact Hrest|].
  apply dispatch_timedAndSorted; trivial.
Qed.

Lemma list_stays_sorted_witness :
  let events :=
    [ChangeStartTime "09:00"; ChangeEndTime "10:00"; ChangeText "write spec";
     Submit 1; ChangeStartTime "08:00"; ChangeEndTime "08:30";
     ChangeText "coffee"; Submit 2; ClickEdit 0; ChangeStartTime "11:00";
     ChangeEndTime "11:30"; Submit 3; ClickDelete 0] in
  collatesTimes caseBlindCollation /\ timeInputs events /\
  State.notes (runEvents caseBlindCollation events initialState)
  = [Note.make 2 "11:00" "11:30" "coffee"] /\
  timedAndSorted (runEvents caseBlindCollation events initialState).
Proof.
  cbv zeta.
  assert (Hev : timeInputs
    [ChangeStartTime "09:00"; ChangeEndTime "10:00"; ChangeText "write spec";
     Submit 1; ChangeStartTime "08:00"; ChangeEndTime "08:30";
     ChangeText "coffee"; Submit 2; ClickEdit 0; ChangeStartTime "11:00";
     ChangeEndTime "11:30"; Submit 3; ClickDelete 0])
    by (repeat constructor).
  split; [exact caseBlindCollation_collatesTimes|].
  split; [exact Hev|]. split; [reflexivity|].
  apply (list_stays_sorted caseBlindCollation _ initialState
           caseBlindCollation_collatesTimes Hev).
  repeat split; constructor.
Defined.

Lemma dispatch_ids localeCompare st ev :
  match ev with
  | Submit now =>
      Permutation (ids (State.notes (dispatch localeCompare st ev)))
                  (ids (State.notes st)) \/
      Permutation (ids (State.notes (dispatch localeCompare st ev)))
                  (now :: ids (State.notes st))
  | _ =>
      incl (ids (State.notes (dispatch localeCompare st ev)))
           (ids (State.notes st)) /\
      (NoDup (ids (State.notes st)) ->
       NoDup (ids (State.notes (dispatch localeCompare st ev))))
  end.
Proof.
  unfold dispatch.
  destruct ev as [v|v|v|now| |confirmed|index|index]; cbn [handle];
    try (split; [apply incl_refl|trivial]).
  - destruct (handleSubmit_cases localeCompare now st) as [H|[H|[_ H]]];
      rewrite H; try (left; reflexivity).
    rewrite run_accepted. cbn [State.notes].
    destruct (State.editingNoteId st) as [id|].
    + left. unfold ids.
      rewrite (Permutation_map Note.id (update_perm localeCompare id _ _ _ _)).
      fold (ids (map (NoteStore.replaceFields id (State.startTime st)
                        (State.endTime st) (State.text st)) (State.notes st))).
      now rewrite map_replaceFields_ids.
    + right. unfold ids.
      now rewrite (Permutation_map Note.id (add_perm localeCompare now _ _ _ _)).
  - destruct (State.editingNoteId st); split; trivial; apply incl_refl.
  - destruct (State.notes st) as [|n ns] eqn:E.
    + cbn. rewrite E. split; [apply incl_refl|trivial].
    + destruct confirmed; cbn; [|rewrite E; split; [apply incl_refl|trivial]].
      split; [apply incl_nil_l|constructor].
  - destruct (nth_error (State.notes st) index); split; trivial;
      apply incl_refl.
  - destruct (nth_error (State.notes st) index) as [note|];
      [|split; [apply incl_refl|trivial]].
    cbn. rewrite remove_ids. split.
    + intros i Hi. now apply filter_In in Hi as [Hi _].
    + intros Hnd. now apply NoDup_filter.
Qed.

(** X9. When every submit reads a clock value above the one read by the
    submit before it, and above the ids already listed, no two listed notes
    share an id, whatever the user does: a clock that only moves forward
    between submits is enough for [Date.now()] to serve as the id. *)
Theorem ids_unique_with_increasing_clock
    (localeCompare : string -> string -> Z)
    (events : list Event) (last : Z) (st : State) :
  NoDup (ids (State.notes st)) ->
  Forall (fun id => id <= last) (ids (State.notes st)) ->
  clockIncreases last events = true ->
  NoDup (ids (State.notes (runEvents localeCompare events st))).
Proof.
  unfold runEvents. revert last st.
  induction events as [|ev events IH]; intros last st Hnd Hle Hclock;
    [exact Hnd|].
  cbn [fold_left].
  pose proof (dispatch_ids localeCompare st ev) as Hids.
  destruct ev as [v|v|v|now| |confirmed|index|index];
    cbn [clockIncreases] in Hclock;
    try (destruct Hids as [Hincl Hkeep];
         apply (IH last); [now apply Hkeep| |exact Hclock];
         rewrite Forall_forall in *; intros i Hi; now apply Hle, Hincl).
  apply andb_true_iff in Hclock as [Hlt Hclock]. apply Z.ltb_lt in Hlt.
  destruct Hids as [Hsame|Hnew]; apply (IH now); trivial.
  - now apply (Permutation_NoDup (Permutation_sym Hsame)).
  - apply (Permutation_Forall (Permutation_sym Hsame)).
    eapply Forall_impl; [|exact Hle]. intros i Hi. cbv beta in *. lia.
  - apply (Permutation_NoDup (Permutation_sym Hnew)).
    constructor; [|exact Hnd].
    intros Hin. rewrite Forall_forall in Hle. apply Hle in Hin. lia.
  - apply (Permutation_Forall (Permutation_sym Hnew)).
    constructor; [lia|].
    eapply Forall_impl; [|exact Hle]. intros i Hi. cbv beta in *. lia.
Qed.

Lemma ids_unique_with_increasing_clock_witness :
  let events :=
    [ChangeStartTime "09:00"; ChangeEndTime "10:00"; ChangeText "write spec";
     Submit 1700000000000; Submit 1700000000001;
     ChangeStartTime "08:00"; ChangeEndTime "08:30"; ChangeText "coffee";
     Submit 1700000000002] in
  clockIncreases 0 events = true /\
  ids (State.notes (runEvents codeUnitCollation events initialState))
  = [1700000000002; 1700000000000] /\
  NoDup (ids (State.notes (runEvents codeUnitCollation events initialState))).
Proof.
  cbv zeta. split; [reflexivity|]. split; [reflexivity|].
  apply (ids_unique_with_increasing_clock codeUnitCollation _ 0 initialState);
    [constructor|constructor|reflexivity].
Defined.

Lemma remove_nth index : forall notes note,
  NoDup (ids notes) -> nth_error notes index = Some note ->
  NoteStore.remove (Note.id note) notes
  = (firstn index notes ++ skipn (S index) notes)%list.
Proof.
  unfold ids.
  induction index as [|index IH]; intros [|n notes] note Hnd Hnth;
    try discriminate; cbn [map] in Hnd; inversion Hnd as [|? ? Hnotin Hnd'];
    subst.
  - injection Hnth as ->. cbn [firstn skipn app NoteStore.remove filter].
    rewrite Z.eqb_refl. cbn [negb].
    apply remove_absent, hasId_false. exact Hnotin.
  - cbn [nth_error] in Hnth.
    change (firstn (S index) (n :: notes)) with (n :: firstn index notes).
    change (skipn (S (S index)) (n :: notes)) with (skipn (S index) notes).
    cbn [app]. rewrite <- (IH notes note Hnd' Hnth).
    unfold NoteStore.remove. cbn [filter].
    destruct (Z.eqb_spec (Note.id n) (Note.id note)) as [E|_]; [|reflexivity].
    exfalso. apply Hnotin. rewrite E.
    apply in_map. now apply nth_error_In in Hnth.
Qed.

(** X12. In a list with distinct ids, the delete button of the note at a
    position removes that one entry and nothing else: the notes before it
    and after it stay, in their order, and the draft stays too. *)
Theorem delete_click_removes_one (localeCompare : string -> string -> Z)
    (st : State) (index : nat) :
  NoDup (ids (State.notes st)) ->
  (index < List.length (State.notes st))%nat ->
  dispatch localeCompare st (ClickDelete index)
  = State.make
      (firstn index (State.notes st) ++ skipn (S index) (State.notes st))%list
      (State.startTime st) (State.endTime st) (State.text st)
      (State.editingNoteId st).
Proof.
  intros Hnd Hlt. unfold dispatch. cbn [handle].
  destruct (nth_error (State.notes st) index) as [note|] eqn:Hnth.
  - cbn. now rewrite (remove_nth index _ note Hnd Hnth).
  - apply nth_error_None in Hnth. lia.
Qed.

Lemma delete_click_removes_one_witness :
  let coffee := Note.make 1 "08:00" "08:30" "coffee" in
  let spec := Note.make 2 "09:00" "10:00" "write spec" in
  let lunch := Note.make 3 "12:00" "13:00" "lunch" in
  dispatch codeUnitCollation
    (State.make [coffee; spec; lunch] "14:00" "" "tea" (Some 2)) (ClickDelete 1)
  = State.make [coffee; lunch] "14:00" "" "tea" (Some 2).
Proof.
  cbv zeta.
  apply (delete_click_removes_one codeUnitCollation
           (State.make [Note.make 1 "08:00" "08:30" "coffee";
                        Note.make 2 "09:00" "10:00" "write spec";
                        Note.make 3 "12:00" "13:00" "lunch"]
              "14:00" "" "tea" (Some 2)) 1).
  - repeat constructor; simpl; intuition discriminate.
  - simpl. lia.
Defined.

(* ================================================================== *)
(** * Further properties of the persistence *)
(* ================================================================== *)

Lemma run_without_setNotes effects : forall st,
  callsSetNotes effects = false ->
  State.notes (run effects st) = State.notes st.
Proof.
  unfold run.
  induction effects as [|e effects IH]; intros st Hcalls; [reflexivity|].
  cbn [callsSetNotes existsb] in Hcalls.
  apply orb_false_iff in Hcalls as [He Hrest].
  cbn [fold_left]. rewrite (IH _ Hrest). now destruct e.
Qed.

Section SessionFacts.

Variable localeCompare : string -> string -> Z.
Variable stringify : list Note -> string.
Variable parse : string -> option (list Note).
Variable quotaExceeded : string -> bool.

Let save := Persistence.save stringify quotaExceeded.
Let stored (ls : Persistence.Storage) :=
  Persistence.getItem ls Persistence.storageKey.

(** The storage takes every write. *)
Hypothesis accepted : forall value, quotaExceeded value = false.

Lemma stored_save notes ls : stored (save notes ls) = Some (stringify notes).
Proof.
  unfold stored, save, Persistence.save, Persistence.saveEffect,
    Persistence.setItem, Persistence.getItem.
  rewrite accepted. cbn [fst]. now rewrite String.eqb_refl.
Qed.

Lemma other_keys_save notes ls key :
  key <> Persistence.storageKey ->
  Persistence.getItem (save notes ls) key = Persistence.getItem ls key.
Proof.
  intros Hkey.
  unfold save, Persistence.save, Persistence.saveEffect,
    Persistence.setItem, Persistence.getItem.
  rewrite accepted. cbn [fst].
  now rewrite (proj2 (String.eqb_neq _ _) Hkey).
Qed.

Lemma stored_commit effects w :
  stored (Session.storage w) = Some (stringify (State.notes (Session.app w))) ->
  stored (Session.storage (Session.commit stringify quotaExceeded effects w))
  = Some (stringify
            (State.notes
               (Session.app (Session.commit stringify quotaExceeded effects w)))).
Proof.
  intros Hw. unfold Session.commit.
  destruct (callsSetNotes effects) eqn:Hcalls; cbn [Session.app Session.storage].
  - apply stored_save.
  - now rewrite (run_without_setNotes _ _ Hcalls).
Qed.

Lemma stored_mount ls :
  stored (Session.storage (Session.mount stringify parse quotaExceeded ls))
  = Some (stringify
            (State.notes
               (Session.app (Session.mount stringify parse quotaExceeded ls)))).
Proof.
  unfold Session.mount. apply stored_commit.
  cbn [Session.app Session.storage]. apply stored_save.
Qed.

Lemma stored_runEvents events : forall w,
  stored (Session.storage w) = Some (stringify (State.notes (Session.app w))) ->
  let w' :=
    Session.runEvents localeCompare stringify quotaExceeded events w in
  stored (Session.storage w') = Some (stringify (State.notes (Session.app w')))
  /\ Session.app w' = runEvents localeCompare events (Session.app w).
Proof.
  unfold Session.runEvents, runEvents.
  induction events as [|ev events IH]; intros w Hw; [now split|].
  cbn [fold_left].
  destruct (IH (Session.dispatch localeCompare stringify quotaExceeded w ev))
    as [Hstored Happ].
  { unfold Session.dispatch. now apply stored_commit. }
  split; [exact Hstored|].
  rewrite Happ. f_equal.
  unfold Session.dispatch, Session.commit, dispatch.
  now destruct (callsSetNotes (handle localeCompare (Session.app w) ev)).
Qed.

End SessionFacts.

(** X11. Mounting the component shows what [load] reads and leaves exactly
    its serialisation in the storage, other keys untouched.  So a stored
    text that is empty or does not parse is not kept: the notes are empty
    and the stored text is replaced by the serialisation of the empty
    array. *)
Theorem mount_rewrites_storage (stringify : list Note -> string)
    (parse : string -> option (list Note)) (quotaExceeded : string -> bool)
    (ls : Persistence.Storage) :
  (forall value, quotaExceeded value = false) ->
  let w := Session.mount stringify parse quotaExceeded ls in
  State.notes (Session.app w) = Persistence.load parse ls /\
  Persistence.getItem (Session.storage w) Persistence.storageKey
  = Some (stringify (Persistence.load parse ls)) /\
  (forall key, key <> Persistence.storageKey ->
     Persistence.getItem (Session.storage w) key = Persistence.getItem ls key) /\
  (match Persistence.getItem ls Persistence.storageKey with
   | None => True
   | Some saved => saved = "" \/ parse saved = None
   end ->
   State.notes (Session.app w) = [] /\
   Persistence.getItem (Session.storage w) Persistence.storageKey
   = Some (stringify [])).
Proof.
  intros Hquota. cbv zeta.
  assert (Hnotes :
    State.notes (Session.app (Session.mount stringify parse quotaExceeded ls))
    = Persistence.load parse ls).
  { unfold Session.mount, Session.commit, Persistence.load.
    now destruct (callsSetNotes (Persistence.loadEffect parse ls)). }
  pose proof (stored_mount stringify parse quotaExceeded Hquota ls) as Hstored.
  rewrite Hnotes in Hstored.
  split; [exact Hnotes|]. split; [exact Hstored|]. split.
  - intros key Hkey. unfold Session.mount, Session.commit.
    destruct (callsSetNotes (Persistence.loadEffect parse ls));
      cbn [Session.storage Session.app];
      now rewrite ?other_keys_save by assumption.
  - intros Hbad. rewrite Hnotes, Hstored.
    now rewrite (load_nothing parse ls Hbad).
Qed.

Lemma mount_rewrites_storage_witness :
  let ls : Persistence.Storage :=
    fun key => if String.eqb key Persistence.storageKey
               then Some "[{broken" else None in
  let w := Session.mount JSON.stringify JSON.parse (fun _ => false) ls in
  JSON.parse "[{broken" = None /\
  State.notes (Session.app w) = [] /\
  Persistence.getItem (Session.storage w) Persistence.storageKey = Some "[]".
Proof.
  cbv zeta. split; [reflexivity|].
  destruct (mount_rewrites_storage JSON.stringify JSON.parse (fun _ => false)
              (fun key => if String.eqb key Persistence.storageKey
                          then Some "[{broken" else None)
              (fun _ => eq_refl))
    as (_ & _ & _ & Hbad).
  apply Hbad. right. reflexivity.
Defined.

(** X10. With a conforming serializer and a storage that takes every write,
    after mounting and after every event the storage holds the
    serialisation of the notes on the page: a reload at any moment shows
    the same list.  What is on the page depends on the events only, not on
    the storage. *)
Theorem storage_mirrors_notes (localeCompare : string -> string -> Z)
    (stringify : list Note -> string) (parse : string -> option (list Note))
    (quotaExceeded : string -> bool)
    (ls : Persistence.Storage) (events : list Event) :
  Persistence.conforming stringify parse ->
  (forall value, quotaExceeded value = false) ->
  let mounted := Session.mount stringify parse quotaExceeded ls in
  let w :=
    Session.runEvents localeCompare stringify quotaExceeded events mounted in
  Persistence.getItem (Session.storage w) Persistence.storageKey
  = Some (stringify (State.notes (Session.app w))) /\
  Persistence.load parse (Session.storage w) = State.notes (Session.app w) /\
  Session.app w = runEvents localeCompare events (Session.app mounted).
Proof.
  intros [Hparse Hnonempty] Hquota. cbv zeta.
  destruct (stored_runEvents localeCompare stringify quotaExceeded Hquota events
              (Session.mount stringify parse quotaExceeded ls)
              (stored_mount stringify parse quotaExceeded Hquota ls))
    as [Hstored Happ].
  split; [exact Hstored|]. split; [|exact Happ].
  unfold Persistence.load, Persistence.loadEffect. rewrite Hstored.
  now rewrite (proj2 (truthy_iff _) (Hnonempty _)), Hparse.
Qed.

Lemma storage_mirrors_notes_witness :
  let ls : Persistence.Storage :=
    fun key =>
      if String.eqb key Persistence.storageKey
      then Some (JSON.stringify [Note.make 1 "09:00" "10:00" "write spec"])
      else None in
  let events :=
    [ChangeStartTime "08:00"; ChangeEndTime "08:30"; ChangeText "coffee";
     Submit 2; ClickDelete 1] in
  let mounted := Session.mount JSON.stringify JSON.parse (fun _ => false) ls in
  let w :=
    Session.runEvents codeUnitCollation JSON.stringify (fun _ => false)
      events mounted in
  Persistence.conforming JSON.stringify JSON.parse /\
  State.notes (Session.app w) = [Note.make 2 "08:00" "08:30" "coffee"] /\
  Persistence.load JSON.parse (Session.storage w) = State.notes (Session.app w).
Proof.
  cbv zeta. split; [exact JSON_conforming|]. split; [reflexivity|].
  exact (proj1 (proj2
    (storage_mirrors_notes codeUnitCollation JSON.stringify JSON.parse
       (fun _ => false)
       (fun key =>
          if String.eqb key Persistence.storageKey
          then Some (JSON.stringify [Note.make 1 "09:00" "10:00" "write spec"])
          else None)
       [ChangeStartTime "08:00"; ChangeEndTime "08:30"; ChangeText "coffee";
        Submit 2; ClickDelete 1]
       JSON_conforming (fun _ => eq_refl)))).
Defined.

(** X13. When the storage refuses every write, nothing the user does
    reaches it: the storage stays as it was before the page was opened, and
    the page goes on with the notes in memory, as if the writes had
    succeeded. *)
Theorem refused_writes_leave_storage (localeCompare : string -> string -> Z)
    (stringify : list Note -> string) (parse : string -> option (list Note))
    (quotaExceeded : string -> bool)
    (ls : Persistence.Storage) (events : list Event) :
  (forall value, quotaExceeded value = true) ->
  let mounted := Session.mount stringify parse quotaExceeded ls in
  let w :=
    Session.runEvents localeCompare stringify quotaExceeded events mounted in
  Session.storage w = ls /\
  State.notes (Session.app mounted) = Persistence.load parse ls /\
  Session.app w = runEvents localeCompare events (Session.app mounted).
Proof.
  intros Hquota. cbv zeta.
  assert (Hcommit : forall effects w,
    Session.storage (Session.commit stringify quotaExceeded effects w)
    = Session.storage w /\
    Session.app (Session.commit stringify quotaExceeded effects w)
    = run effects (Session.app w)).
  { intros effects w. unfold Session.commit.
    destruct (callsSetNotes effects); cbn [Session.storage Session.app];
      split; trivial.
    apply save_refused, Hquota. }
  assert (Hmount :
    Session.storage (Session.mount stringify parse quotaExceeded ls) = ls).
  { unfold Session.mount. rewrite (proj1 (Hcommit _ _)).
    cbn [Session.storage]. apply save_refused, Hquota. }
  assert (Hrun : forall w,
    Session.storage
      (Session.runEvents localeCompare stringify quotaExceeded events w)
    = Session.storage w /\
    Session.app
      (Session.runEvents localeCompare stringify quotaExceeded events w)
    = runEvents localeCompare events (Session.app w)).
  { unfold Session.runEvents, runEvents.
    induction events as [|ev events IH]; intros w; [now split|].
    cbn [fold_left]. destruct (IH (Session.dispatch localeCompare stringify
                                     quotaExceeded w ev)) as [Hs Ha].
    unfold Session.dispatch in *.
    destruct (Hcommit (handle localeCompare (Session.app w) ev) w) as [Hs' Ha'].
    split; [now rewrite Hs|]. now rewrite Ha, Ha'. }
  destruct (Hrun (Session.mount stringify parse quotaExceeded ls)) as [Hs Ha].
  split; [now rewrite Hs|]. split; [|exact Ha].
  unfold Session.mount. rewrite (proj2 (Hcommit _ _)). reflexivity.
Qed.

Lemma refused_writes_leave_storage_witness :
  let events :=
    [ChangeStartTime "08:00"; ChangeEndTime "08:30"; ChangeText "coffee";
     Submit 2] in
  let mounted :=
    Session.mount JSON.stringify JSON.parse (fun _ => true)
      Persistence.emptyStorage in
  let w :=
    Session.runEvents codeUnitCollation JSON.stringify (fun _ => true)
      events mounted in
  State.notes (Session.app w) = [Note.make 2 "08:00" "08:30" "coffee"] /\
  Session.storage w = Persistence.emptyStorage.
Proof.
  cbv zeta. split; [reflexivity|].
  exact (proj1
    (refused_writes_leave_storage codeUnitCollation JSON.stringify JSON.parse
       (fun _ => true) Persistence.emptyStorage
       [ChangeStartTime "08:00"; ChangeEndTime "08:30"; ChangeText "coffee";
        Submit 2]
       (fun _ => eq_refl))).
Defined.

(* ================================================================== *)
(** * Where a note is listed, and what a lost edit does *)
(* ================================================================== *)

Lemma filter_none {A : Type} (f : A -> bool) (l : list A) :
  (forall x, In x l -> f x = false) -> filter f l = [].
Proof.
  induction l as [|y l IH]; intros H; [reflexivity|].
  cbn [filter]. rewrite (H y (or_introl eq_refl)).
  apply IH. intros x Hx. apply H. now right.
Qed.

Lemma filter_all {A : Type} (f : A -> bool) (l : list A) :
  (forall x, In x l -> f x = true) -> filter f l = l.
Proof.
  induction l as [|y l IH]; intros H; [reflexivity|].
  cbn [filter]. rewrite (H y (or_introl eq_refl)). f_equal.
  apply IH. intros x Hx. apply H. now right.
Qed.

Section Placement.

Variable localeCompare : string -> string -> Z.
Hypothesis collates : collatesTimes localeCompare.

Let sortNotes := JS.sort (NoteStore.byStartTime localeCompare).

Lemma sortNotes_append_new (x : Note) (notes : list Note) :
  isTime (Note.startTime x) = true ->
  timesValid notes -> StronglySorted startsNoLater notes ->
  sortNotes (notes ++ [x])
  = (filter (fun n => String.leb (Note.startTime n) (Note.startTime x)) notes
     ++ x ::
     filter (fun n => negb (String.leb (Note.startTime n) (Note.startTime x)))
       notes)%list.
Proof.
  intros Hx. induction notes as [|y notes IH]; intros Hv Hs; [reflexivity|].
  inversion Hv as [|? ? Hy Hv']; subst.
  inversion Hs as [|? ? Hs' Hall]; subst.
  change (sortNotes ((y :: notes) ++ [x]))
    with (JS.insert (NoteStore.byStartTime localeCompare) y
            (sortNotes (notes ++ [x]))).
  rewrite (IH Hv' Hs'). cbn [filter].
  assert (Hle : forall n, isTime (Note.startTime n) = true ->
                  startsNoLater y n ->
                  (NoteStore.byStartTime localeCompare y n <=? 0) = true).
  { intros n Hn Hyn. apply Z.leb_le.
    now apply (byStartTime_le localeCompare collates). }
  destruct (String.leb (Note.startTime y) (Note.startTime x)) eqn:Hyx;
    cbn [negb app].
  - destruct (filter (fun n => String.leb (Note.startTime n) (Note.startTime x))
                notes) as [|z zs] eqn:Hf; cbn [app JS.insert].
    + now rewrite (Hle x Hx Hyx).
    + assert (Hz : In z notes).
      { eapply proj1. apply filter_In. rewrite Hf. now left. }
      rewrite Forall_forall in Hall, Hv'.
      now rewrite (Hle z (Hv' z Hz) (Hall z Hz)).
  - assert (Hnone : forall n, In n notes ->
                      String.leb (Note.startTime n) (Note.startTime x) = false).
    { intros n Hn. rewrite Forall_forall in Hall.
      destruct (String.leb (Note.startTime n) (Note.startTime x)) eqn:Hnx;
        [|reflexivity].
      rewrite <- Hyx. symmetry.
      apply (string_leb_trans _ (Note.startTime n)); [now apply Hall|exact Hnx]. }
    assert (Hempty :
      filter (fun n => String.leb (Note.startTime n) (Note.startTime x)) notes
      = []).
    { apply filter_none. exact Hnone. }
    assert (Hall' :
      filter (fun n => negb (String.leb (Note.startTime n) (Note.startTime x)))
        notes = notes).
    { apply filter_all. intros n Hn. now rewrite (Hnone n Hn). }
    rewrite Hempty, Hall'. cbn [app JS.insert].
    assert (Hxy : (NoteStore.byStartTime localeCompare y x <=? 0) = false).
    { apply Z.leb_gt.
      destruct (Z.le_gt_cases (NoteStore.byStartTime localeCompare y x) 0)
        as [Hc|Hc]; [|lia].
      apply (byStartTime_le localeCompare collates) in Hc; trivial.
      unfold startsNoLater in Hc. congruence. }
    rewrite Hxy. f_equal.
    destruct notes as [|z zs]; [reflexivity|]. cbn [JS.insert].
    rewrite Forall_forall in Hall, Hv'.
    now rewrite (Hle z (Hv' z (or_introl eq_refl)) (Hall z (or_introl eq_refl))).
Qed.

End Placement.

(** X15. In a sorted list at times of day, an accepted new note is listed
    behind every note that starts no later than it and in front of every
    note that starts later; the other notes keep their places. *)
Theorem new_note_position (localeCompare : string -> string -> Z)
    (now : Z) (st : State) :
  collatesTimes localeCompare ->
  timesValid (State.notes st) ->
  StronglySorted startsNoLater (State.notes st) ->
  isTime (State.startTime st) = true ->
  State.editingNoteId st = None ->
  callsSetNotes (handleSubmit localeCompare now st) = true ->
  let newNote :=
    Note.make now (State.startTime st) (State.endTime st) (State.text st) in
  State.notes (dispatch localeCompare st (Submit now))
  = (filter (fun n => String.leb (Note.startTime n) (State.startTime st))
       (State.notes st)
     ++ newNote ::
     filter (fun n => negb (String.leb (Note.startTime n) (State.startTime st)))
       (State.notes st))%list.
Proof.
  intros Hc Hv Hs Ht Hedit Hcall. cbv zeta. unfold dispatch. cbn [handle].
  destruct (handleSubmit_cases localeCompare now st) as [H|[H|[_ H]]];
    rewrite H in Hcall |- *; try discriminate Hcall.
  rewrite run_accepted, Hedit. cbn [State.notes]. unfold NoteStore.add.
  now apply (sortNotes_append_new localeCompare Hc).
Qed.

Lemma new_note_position_witness :
  let coffee := Note.make 1 "08:00" "08:30" "coffee" in
  let spec := Note.make 2 "09:00" "10:00" "write spec" in
  let lunch := Note.make 3 "12:00" "13:00" "lunch" in
  let st := State.make [coffee; spec; lunch] "09:00" "09:15" "standup" None in
  collatesTimes caseBlindCollation /\
  State.notes (dispatch caseBlindCollation st (Submit 4))
  = [coffee; spec; Note.make 4 "09:00" "09:15" "standup"; lunch].
Proof.
  cbv zeta. split; [exact caseBlindCollation_collatesTimes|].
  apply (new_note_position caseBlindCollation 4
           (State.make [Note.make 1 "08:00" "08:30" "coffee";
                        Note.make 2 "09:00" "10:00" "write spec";
                        Note.make 3 "12:00" "13:00" "lunch"]
              "09:00" "09:15" "standup" None)
           caseBlindCollation_collatesTimes);
    try reflexivity; repeat constructor.
Defined.

(** X14. Clicking edit on a listed note, deleting that note and then
    submitting the form: the submit is accepted without an alert, the list
    stays the list without the deleted note, and the draft is emptied, so
    what the form held is stored nowhere.  This holds for a list that is
    sorted, at times of day and with distinct ids, and a note that passes
    the validation. *)
Theorem edit_delete_submit_loses_draft (localeCompare : string -> string -> Z)
    (now : Z) (st : State) (index : nat) (note : Note) :
  collatesTimes localeCompare ->
  timesValid (State.notes st) ->
  StronglySorted startsNoLater (State.notes st) ->
  NoDup (ids (State.notes st)) ->
  nth_error (State.notes st) index = Some note ->
  passesValidation note = true ->
  let editing := dispatch localeCompare st (ClickEdit index) in
  let deleted := dispatch localeCompare editing (ClickDelete index) in
  let remaining :=
    (firstn index (State.notes st) ++ skipn (S index) (State.notes st))%list in
  deleted = State.make remaining (Note.startTime note) (Note.endTime note)
              (Note.text note) (Some (Note.id note)) /\
  alerts (handle localeCompare deleted (Submit now)) = [] /\
  dispatch localeCompare deleted (Submit now)
  = State.make remaining "" "" "" None.
Proof.
  intros Hc Hv Hs Hnd Hnth Hok. cbv zeta.
  assert (Hedit :
    dispatch localeCompare st (ClickEdit index)
    = State.make (State.notes st) (Note.startTime note) (Note.endTime note)
        (Note.text note) (Some (Note.id note))).
  { unfold dispatch. cbn [handle]. now rewrite Hnth. }
  rewrite Hedit.
  assert (Hdel :
    dispatch localeCompare
      (State.make (State.notes st) (Note.startTime note) (Note.endTime note)
         (Note.text note) (Some (Note.id note))) (ClickDelete index)
    = State.make (NoteStore.remove (Note.id note) (State.notes st))
        (Note.startTime note) (Note.endTime note) (Note.text note)
        (Some (Note.id note))).
  { unfold dispatch. cbn [handle State.notes]. now rewrite Hnth. }
  rewrite Hdel, <- (remove_nth index _ note Hnd Hnth).
  split; [reflexivity|].
  unfold passesValidation in Hok.
  do 3 (apply andb_true_iff in Hok as [Hok ?]).
  unfold dispatch. cbn [handle].
  rewrite handleSubmit_accepted;
    cbn [State.notes State.startTime State.endTime State.text
           State.editingNoteId];
    try (now apply truthy_iff); try assumption.
  split; [reflexivity|].
  rewrite run_accepted. cbn [State.notes]. f_equal.
  unfold NoteStore.update.
  rewrite map_replaceFields_absent by apply hasId_remove.
  apply (sortNotes_sorted_id localeCompare Hc).
  - now apply timesValid_remove.
  - now apply remove_sorted.
Qed.

Lemma edit_delete_submit_loses_draft_witness :
  let coffee := Note.make 1 "08:00" "08:30" "coffee" in
  let spec := Note.make 2 "09:00" "10:00" "write spec" in
  let st := State.make [coffee; spec] "" "" "" None in
  let editing := dispatch caseBlindCollation st (ClickEdit 1) in
  let deleted := dispatch caseBlindCollation editing (ClickDelete 1) in
  collatesTimes caseBlindCollation /\
  deleted = State.make [coffee] "09:00" "10:00" "write spec" (Some 2) /\
  alerts (handle caseBlindCollation deleted (Submit 3)) = [] /\
  dispatch caseBlindCollation deleted (Submit 3)
  = State.make [coffee] "" "" "" None.
Proof.
  cbv zeta. split; [exact caseBlindCollation_collatesTimes|].
  apply (edit_delete_submit_loses_draft caseBlindCollation 3
           (State.make [Note.make 1 "08:00" "08:30" "coffee";
                        Note.make 2 "09:00" "10:00" "write spec"]
              "" "" "" None)
           1 (Note.make 2 "09:00" "10:00" "write spec")
           caseBlindCollation_collatesTimes);
    try reflexivity; repeat constructor; simpl; intuition discriminate.
Defined.
